(** * Kernel density estimation transform: a shallow embedding

    The development follows [src/transform/kde.ts].  The transform reads
    an options object, validates it, resolves an extent and a bandwidth,
    samples a density per (group, field) pair and finally replaces the
    rows of the view.

    Host numbers are idealised: a number is [NaN], one of the two
    infinities, or an exact rational.  Rounding and the sign of zero are
    not represented; the special values are, because the code's
    comparisons and divisions meet them. *)

From Stdlib Require Import QArith Qround Lqa ZArith Lia.
From stdpp Require Import gmap strings list fin_maps.

Set Warnings "-register-all".
Open Scope string_scope.
Open Scope list_scope.

(** ** Numbers *)

Inductive num : Type :=
| NaN
| NInf
| Fin (q : Q)
| PInf.

(** Three-way comparison; [None] when either side is [NaN]. *)
Definition num_cmp (a b : num) : option comparison :=
  match a, b with
  | NaN, _ | _, NaN => None
  | NInf, NInf => Some Eq
  | NInf, _ => Some Lt
  | Fin _, NInf => Some Gt
  | Fin p, Fin q => Some (p ?= q)%Q
  | Fin _, PInf => Some Lt
  | PInf, PInf => Some Eq
  | PInf, _ => Some Gt
  end.

(** [a < b], [a <= b], [a >= b] of the host language. *)
Definition num_lt (a b : num) : bool :=
  match num_cmp a b with Some Lt => true | _ => false end.

Definition num_le (a b : num) : bool :=
  match num_cmp a b with Some Lt | Some Eq => true | _ => false end.

Definition num_ge (a b : num) : bool :=
  match num_cmp a b with Some Gt | Some Eq => true | _ => false end.

Definition num_neg (a : num) : num :=
  match a with
  | NaN => NaN
  | NInf => PInf
  | Fin q => Fin (- q)
  | PInf => NInf
  end.

Definition num_add (a b : num) : num :=
  match a, b with
  | NaN, _ | _, NaN => NaN
  | Fin p, Fin q => Fin (p + q)
  | PInf, NInf | NInf, PInf => NaN
  | PInf, _ | _, PInf => PInf
  | NInf, _ | _, NInf => NInf
  end.

Definition num_sub (a b : num) : num := num_add a (num_neg b).

Definition num_div (a b : num) : num :=
  match a, b with
  | NaN, _ | _, NaN => NaN
  | Fin p, Fin q =>
      if Qeq_bool q 0 then
        match (Qnum p ?= 0)%Z with
        | Eq => NaN
        | Gt => PInf
        | Lt => NInf
        end
      else Fin (p / q)
  | Fin _, (PInf | NInf) => Fin 0
  | PInf, Fin q => if Qle_bool 0 q then PInf else NInf
  | NInf, Fin q => if Qle_bool 0 q then NInf else PInf
  | (PInf | NInf), (PInf | NInf) => NaN
  end.

Definition num_of_nat (n : nat) : num := Fin (inject_Z (Z.of_nat n)).

(** Truthiness of a number: [0] and [NaN] are falsy. *)
Definition num_truthy (a : num) : bool :=
  match a with
  | NaN => false
  | Fin q => negb (Qeq_bool q 0)
  | _ => true
  end.

(** [Math.min(...l)] and [Math.max(...l)]: the neutral element on no
    argument, [NaN] as soon as one argument is [NaN]. *)
Definition min2 (a b : num) : num :=
  match num_cmp a b with
  | None => NaN
  | Some Gt => b
  | Some _ => a
  end.

Definition max2 (a b : num) : num :=
  match num_cmp a b with
  | None => NaN
  | Some Lt => b
  | Some _ => a
  end.

Definition Math_min (l : list num) : num := foldr min2 PInf l.
Definition Math_max (l : list num) : num := foldr max2 NInf l.

(** ** Values and objects *)

(** Host values.  A callable is named; the host interprets the name. *)
Inductive value : Type :=
| VUndef
| VNull
| VBool (b : bool)
| VNum (n : num)
| VStr (s : string)
| VArr (l : list value)
| VFun (f : string).

(** A plain object: own properties by name.  Options and rows are
    objects. *)
Abbreviation obj := (gmap string value).
Abbreviation row := (gmap string value).

Definition isArray (v : value) : bool :=
  match v with VArr _ => true | _ => false end.
Definition isString (v : value) : bool :=
  match v with VStr _ => true | _ => false end.
Definition isFunction (v : value) : bool :=
  match v with VFun _ => true | _ => false end.
Definition isNumber (v : value) : bool :=
  match v with VNum _ => true | _ => false end.
Definition isUndefined (v : value) : bool :=
  match v with VUndef => true | _ => false end.

(** [o[k]]: a missing property reads as [undefined]. *)
Definition get (o : obj) (k : string) : value := default VUndef (o !! k).

Definition truthy (v : value) : bool :=
  match v with
  | VUndef | VNull => false
  | VBool b => b
  | VNum n => num_truthy n
  | VStr s => negb (String.eqb s EmptyString)
  | VArr _ | VFun _ => true
  end.

(** [v] read as a sequence: anything that is not an array has no
    entries to iterate. *)
Definition as_sequence (v : value) : list value :=
  match v with VArr l => l | _ => [] end.

Definition num_eqb (a b : num) : bool :=
  match num_cmp a b with
  | Some Eq => true
  | None => match a, b with NaN, NaN => true | _, _ => false end
  | _ => false
  end.

Fixpoint value_eqb (a b : value) : bool :=
  match a, b with
  | VUndef, VUndef | VNull, VNull => true
  | VBool x, VBool y => Bool.eqb x y
  | VNum x, VNum y => num_eqb x y
  | VStr x, VStr y => String.eqb x y
  | VArr xs, VArr ys =>
      (fix go (xs ys : list value) : bool :=
         match xs, ys with
         | [], [] => true
         | x :: xs', y :: ys' => value_eqb x y && go xs' ys'
         | _, _ => false
         end) xs ys
  | VFun f, VFun g => String.eqb f g
  | _, _ => false
  end.

(** ** The host: collaborators of the transform that live outside
    [kde.ts]

    The kernel and bandwidth registries ([util/kernel],
    [util/bandwidth]), the option parser's [getFields] and the view's
    [range] and [getColumn] are used by the transform but defined
    elsewhere; so are the host language's coercions on values that are
    not numbers or strings, and the meaning of a callable.  They are
    parameters of the development, typed as the interfaces of section
    6 have them: a kernel maps a number to a number, [range] a field
    to a sequence of numbers, a bandwidth rule or a callable bandwidth
    a column to a number, unless it throws ([None]; the rules of the
    registry do on a column without values).  The bandwidth registry
    exports the default rule [nrd].  The registry is a module object,
    so that [bandwidth[name]] may also be answered, for a name that is
    no rule, by a member the object has besides its rules (one it
    inherits, such as [toString]): [bandwidth_inherited name] is that
    member when it is truthy, as what a call of it on a column does: it
    throws ([None]) or returns a value. *)
Record Host : Type := {
  coerce_number : value → num;
  coerce_key : value → string;
  call_kernel : string → num → num;
  call_bandwidth : string → list value → option num;
  kernel : gmap string (num → num);
  bandwidth : gmap string (list value → option num);
  nrd : list value → option num;
  bandwidth_nrd : bandwidth !! "nrd" = Some nrd;
  bandwidth_inherited : string → option (list value → option value);
  getFields : obj → value;
  range : list row → value → list num;
  getColumn : list row → value → list value
}.

(** ** The world the transform runs in *)

Definition loc := nat.

(** What the transform does to the view, in order. *)
Inductive access : Type :=
| Range (field : value)
| GetColumn (field : value)
| SetRows (rs : list row).

(** [heap] holds the option objects by reference, [dv_rows] is
    [dv.rows], [trace] logs the calls on [dv]. *)
Record world : Type := World {
  heap : list obj;
  dv_rows : list row;
  trace : list access
}.

(** The four [throw new TypeError(...)] of the validation. *)
Inductive error : Type :=
| InvalidFields
| InvalidAs
| InvalidMethod (method : string)
| MethodNotFunction.

(** How a computation ends: with a result, with one of the four errors
    of the validation, without end, or with an exception that a
    collaborator raises (a call of something that is no rule, the
    estimator of the statistics library). *)
Inductive outcome (A : Type) : Type :=
| Ok (a : A)
| Throw (e : error)
| Diverge
| Fault.
Arguments Ok {A} a.
Arguments Throw {A} e.
Arguments Diverge {A}.
Arguments Fault {A}.

Definition M (A : Type) : Type := world → outcome A * world.

#[global] Instance M_ret : MRet M := λ A a w, (Ok a, w).
#[global] Instance M_bind : MBind M := λ A B f m w,
  match m w with
  | (Ok a, w') => f a w'
  | (Throw e, w') => (Throw e, w')
  | (Diverge, w') => (Diverge, w')
  | (Fault, w') => (Fault, w')
  end.

Definition throw {A} (e : error) : M A := λ w, (Throw e, w).
Definition diverge {A} : M A := λ w, (Diverge, w).
Definition fault {A} : M A := λ w, (Fault, w).

(** [{}]: a fresh object. *)
Definition alloc (o : obj) : M loc := λ w,
  (Ok (length (heap w)),
   {| heap := heap w ++ [o]; dv_rows := dv_rows w; trace := trace w |}).

(** The object a reference points to, if any. *)
Definition deref (l : loc) : M (option obj) := λ w, (Ok (heap w !! l), w).

(** The properties read through a reference. *)
Definition load (l : loc) : M obj := λ w, (Ok (default ∅ (heap w !! l)), w).

Definition update (l : loc) (f : obj → obj) : M unit := λ w,
  (Ok (),
   {| heap := alter f l (heap w); dv_rows := dv_rows w; trace := trace w |}).

Definition log (a : access) (w : world) : world :=
  {| heap := heap w; dv_rows := dv_rows w; trace := trace w ++ [a] |}.

(** [dv.rows] and [dv.rows = rs]. *)
Definition read_rows : M (list row) := λ w, (Ok (dv_rows w), w).
Definition set_rows (rs : list row) : M unit := λ w,
  (Ok (),
   {| heap := heap w; dv_rows := rs; trace := trace w ++ [SetRows rs] |}).

Fixpoint foldM {A B} (f : B → A → M B) (b : B) (l : list A) : M B :=
  match l with
  | [] => mret b
  | a :: l' => b' ← f b a; foldM f b' l'
  end.

(** ** The transform *)

(** [DEFAULT_OPTIONS] (lines 14-23). *)
Definition DEFAULT_OPTIONS : obj :=
  <["minSize" := VNum (Fin (1 # 100))]>
  (<["as" := VArr [VStr "key"; VStr "y"; VStr "size"]]>
  (<["extent" := VArr []]>
  (<["method" := VStr "gaussian"]>
  (<["bandwidth" := VStr "nrd"]>
  (<["step" := VNum (Fin 0)]>
  (<["groupBy" := VArr []]> ∅)))))).

(** One source of the utility library's [assign]: every own property
    of [src] other than [constructor] whose value is not [undefined] is
    written to [dist]. *)
Definition mix (dist src : obj) : obj :=
  filter (λ kv, kv.1 ≠ "constructor" ∧ isUndefined kv.2 = false) src ∪ dist.

(** [assign(dist, src1, src2, ...)] mutates and returns [dist]; a
    source that is not there is skipped. *)
Definition assign (dist : loc) (srcs : list (option obj)) : M loc :=
  update dist (λ d, foldl mix d (omap id srcs));; mret dist.

(** Modelled from the spec: [util/get-series-values], which [kde.ts]
    imports as [getSeriesValues], is missing.  Section 4.5: the samples
    start at [extent[0]], advance by the stride and run until
    [extent[1]] inclusive.  The loop need not end (a stride that is not
    positive), hence the fuel. *)
Fixpoint series_from (fuel : nat) (tmp max stride : num) : option (list num) :=
  match fuel with
  | O => None
  | S n =>
      if num_lt tmp max
      then cons tmp <$> series_from n (num_add tmp stride) max stride
      else Some [max]
  end.

(** Modelled from the spec: [util/partition], which [kde.ts] imports
    as [partition], is missing.  Section 4.4: the key of a row is the
    tuple of its [groupBy] values, rows with equal keys form a group,
    groups come in the order their key is first seen, rows keep their
    order, and with no [groupBy] field all rows form exactly one
    group. *)
Definition key_eqb (k1 k2 : list value) : bool :=
  value_eqb (VArr k1) (VArr k2).

Fixpoint add_to_group (k : list value) (r : row)
    (groups : list (list value * list row)) : list (list value * list row) :=
  match groups with
  | [] => [(k, [r])]
  | (k', rs) :: groups' =>
      if key_eqb k k' then (k', rs ++ [r]) :: groups'
      else (k', rs) :: add_to_group k r groups'
  end.

Section Transform.
Context (H : Host).

(** Coercions of the host language. *)
Definition to_number (v : value) : num :=
  match v with
  | VNum n => n
  | VUndef => NaN
  | VNull => Fin 0
  | VBool b => Fin (if b then 1 else 0)
  | _ => coerce_number H v
  end.

Definition to_key (v : value) : string :=
  match v with
  | VStr s => s
  | _ => coerce_key H v
  end.

Definition getSeriesValues (fuel : nat) (extent : list value) (stride : num)
    : M (list num) :=
  match series_from fuel (to_number (nth 0 extent VUndef))
          (to_number (nth 1 extent VUndef)) stride with
  | Some l => mret l
  | None => diverge
  end.

(** The grouping key of a row. *)
Definition row_key (groupBy : list value) (r : row) : list value :=
  map (λ g, get r (to_key g)) groupBy.

Definition partition (rows : list row) (groupBy : list value)
    : list (list row) :=
  match groupBy with
  | [] => [rows]
  | _ =>
      (foldl (λ groups r, add_to_group (row_key groupBy r) r groups)
             [] rows).*2
  end.

(** Lines 44-46. *)
Definition check_fields (fields : value) : M (list value) :=
  match fields with
  | VArr (f :: fs) => mret (f :: fs)
  | _ => throw InvalidFields
  end.

(** Lines 47-50. *)
Definition check_as (as_ : value) : M (value * value * value) :=
  match as_ with
  | VArr [key; y; size] => mret (key, y, size)
  | _ => throw InvalidAs
  end.

(** Lines 51-60: a name is looked up in the kernel registry, whose
    entries are functions; a callable is taken as it is. *)
Definition resolve_method (method : value) : M (num → num) :=
  match method with
  | VStr name =>
      match kernel H !! name with
      | None => throw (InvalidMethod name)
      | Some k => mret k
      end
  | VFun f => mret (call_kernel H f)
  | _ => throw MethodNotFunction
  end.

Definition dv_range (field : value) : M (list num) := λ w,
  (Ok (range H (dv_rows w) field), log (Range field) w).

Definition dv_getColumn (field : value) : M (list value) := λ w,
  (Ok (getColumn H (dv_rows w) field), log (GetColumn field) w).

(** Lines 62-70. *)
Definition resolve_extent (fields : list value) (extent : value)
    : M (list value) :=
  match extent with
  | VArr (e :: es) => mret (e :: es)
  | _ =>
      rangeArr ← foldM (λ rangeArr field,
                          range ← dv_range field; mret (rangeArr ++ range))
                       [] fields;
      mret [VNum (Math_min rangeArr); VNum (Math_max rangeArr)]
  end.

Definition fields0 (fields : list value) : value := nth 0 fields VUndef.

(** The outcome of a call: the value it returns, or its exception. *)
Definition returned (r : option value) : M value :=
  match r with
  | Some v => mret v
  | None => fault
  end.

(** Lines 71-78.  Line 72 reads [bandwidth[bw]] on the module object:
    a rule of that name is called, and so is, for a name that is no
    rule, a truthy member the object has besides its rules; what such a
    member returns becomes the bandwidth, whatever it is. *)
Definition resolve_bandwidth (fields : list value) (bw : value) : M value :=
  match bw with
  | VStr name =>
      match bandwidth H !! name with
      | Some rule =>
          col ← dv_getColumn (fields0 fields); returned (VNum <$> rule col)
      | None =>
          match bandwidth_inherited H name with
          | Some member =>
              col ← dv_getColumn (fields0 fields); returned (member col)
          | None =>
              col ← dv_getColumn (fields0 fields);
              returned (VNum <$> nrd H col)
          end
      end
  | VFun f =>
      col ← dv_getColumn (fields0 fields);
      returned (VNum <$> call_bandwidth H f col)
  | VNum n =>
      if num_le n (Fin 0)
      then col ← dv_getColumn (fields0 fields); returned (VNum <$> nrd H col)
      else mret (VNum n)
  | _ => col ← dv_getColumn (fields0 fields); returned (VNum <$> nrd H col)
  end.

(** The estimator of the statistics library is given the bandwidth as
    its third argument (line 91).  It takes a number as it is; handed
    what a member that is no rule has returned (a string such as
    [[object Object]], an object, a boolean) it raises.  The bandwidth
    the library chooses by itself when it is handed [undefined], the
    name of one of its own rules or a callable is left out: no rule,
    callable or number of the options leads there. *)
Definition estimator_bandwidth (bw : value) : M num :=
  match bw with
  | VNum n => mret n
  | _ => fault
  end.

(** The estimator of the statistics library, the formula of section
    4.5: the mean over the sample [X] of [kernel((x - Xi) / bw) / bw],
    computed as the sum of the kernel values, divided by the bandwidth
    and then by the sample count. *)
Definition kernelDensityEstimation (X : list value) (k : num → num)
    (bw : num) (x : num) : num :=
  num_div
    (num_div
       (foldl (λ sum Xi,
                 num_add sum (k (num_div (num_sub x (to_number Xi)) bw)))
              (Fin 0) X)
       bw)
    (num_of_nat (length X)).

(** [pick(object, keys)]: the own properties of [object] among
    [keys]; nothing when there is no object. *)
Definition pick (object : option row) (keys : list value) : row :=
  match object with
  | None => ∅
  | Some o =>
      foldl (λ result key,
               match o !! to_key key with
               | Some v => <[to_key key := v]> result
               | None => result
               end)
            ∅ keys
  end.

(** [row[k].push(v)]. *)
Definition push (k : string) (v : value) (r : row) : row :=
  match r !! k with
  | Some (VArr l) => <[k := VArr (l ++ [v])]> r
  | _ => r
  end.

(** Lines 87-104: the output row of one group and one field. *)
Definition density_row (as_ : value * value * value) (method : num → num)
    (bw : num) (minSize : value) (seriesValues : list num)
    (groupBy : value) (group : list row) (field : value) : row :=
  let '(key, y, size) := as_ in
  let row0 := pick (head group) (as_sequence groupBy) in
  let pdf :=
    kernelDensityEstimation
      (map (λ item, get item (to_key field)) group) method bw in
  let row1 :=
    <[to_key size := VArr []]>
      (<[to_key y := VArr []]> (<[to_key key := field]> row0)) in
  foldl (λ row yValue,
           let sizeValue := pdf yValue in
           if num_ge sizeValue (to_number minSize)
           then push (to_key size) (VNum sizeValue)
                  (push (to_key y) (VNum yValue) row)
           else row)
        row1 seriesValues.

(** The rows of lines 80-106 when the estimator is given the number
    [bw]: one per group and field, group by group. *)
Definition build_result (as_ : value * value * value) (method : num → num)
    (bw : num) (minSize : value) (seriesValues : list num)
    (groupBy : value) (groups : list (list row)) (fields : list value)
    : list row :=
  flat_map (λ group,
              map (density_row as_ method bw minSize seriesValues
                     groupBy group) fields)
           groups.

(** Lines 80-106: the two loops, over the groups and over the fields,
    push one row each time round onto [result]; the estimator is called
    for every row and may raise. *)
Definition build_rows (as_ : value * value * value) (method : num → num)
    (bw : value) (minSize : value) (seriesValues : list num)
    (groupBy : value) (groups : list (list row)) (fields : list value)
    : M (list row) :=
  foldM (λ result group,
           foldM (λ result field,
                    n ← estimator_bandwidth bw;
                    mret (result
                          ++ [density_row as_ method n minSize seriesValues
                                groupBy group field]))
                 result fields)
        [] groups.

(** Lines 43-108: the transform once the options are merged. *)
Definition pipeline (fuel : nat) (o : obj) : M unit :=
  fields ← check_fields (getFields H o);
  as_ ← check_as (get o "as");
  method ← resolve_method (get o "method");
  extent ← resolve_extent fields (get o "extent");
  bw ← resolve_bandwidth fields (get o "bandwidth");
  seriesValues ←
    getSeriesValues fuel extent
      (if truthy (get o "step") then to_number (get o "step")
       else to_number bw);
  let groupBy := get o "groupBy" in
  rows ← read_rows;
  let groups := partition rows (as_sequence groupBy) in
  result ← build_rows as_ method bw (get o "minSize") seriesValues
             groupBy groups fields;
  set_rows result.

(** Lines 41-109.  The view [dv] is the one of the world; [options]
    is the reference the caller passes, and line 42 rebinds the local
    name to a fresh object. *)
Definition transform (fuel : nat) (options : loc) : M unit :=
  fresh ← alloc ∅;
  caller ← deref options;
  options ← assign fresh [Some DEFAULT_OPTIONS; caller];
  o ← load options;
  pipeline fuel o.
End Transform.

(** ** Reading a run of the transform

    Closed forms of what the effectful steps compute and log; the
    lemmas below relate them to the code. *)

(** The object line 42 builds from the defaults and the caller's
    record. *)
Definition merged (w : world) (options : loc) : obj :=
  foldl mix ∅ (omap id [Some DEFAULT_OPTIONS; heap w !! options]).

Definition logs (l : list access) (w : world) : world :=
  {| heap := heap w; dv_rows := dv_rows w; trace := trace w ++ l |}.

Definition is_SetRows (a : access) : Prop :=
  match a with SetRows _ => True | _ => False end.

Definition is_GetColumn (a : access) : Prop :=
  match a with GetColumn _ => True | _ => False end.


(** Value equality of numbers and strict order of a sample sequence. *)
Definition num_eq (a b : num) : Prop := num_eqb a b = true.

Definition increasing (l : list num) : Prop :=
  ∀ i j x y, (i < j)%nat → l !! i = Some x → l !! j = Some y →
             num_lt x y = true.

(** What the sampling loop from [a] to [b] yields: a strictly
    increasing sequence of numbers up to [b] that ends with [b], starts
    with [a] when [a < b], and is [b] alone otherwise. *)
Definition series_ok (a b : Q) (l : list num) : Prop :=
  increasing l ∧ last l = Some (Fin b) ∧
  Forall (λ y, ∃ q, y = Fin q ∧ (q <= b)%Q ∧ ((a <= q)%Q ∨ ¬ (a < b)%Q)) l ∧
  ((a < b)%Q → head l = Some (Fin a)) ∧
  (¬ (a < b)%Q → l = [Fin b]).

(** The body of the sampling loop of lines 97-103, for a density [pdf]
    and a threshold [m], and the samples it keeps. *)
Definition sample_step (ky ks : string) (pdf : num → num) (m : num)
    (r : row) (yValue : num) : row :=
  if num_ge (pdf yValue) m
  then push ks (VNum (pdf yValue)) (push ky (VNum yValue) r)
  else r.

Definition kept (pdf : num → num) (m : num) (series : list num) : list num :=
  List.filter (λ x, num_ge (pdf x) m) series.

(** A number that no positive threshold lets pass: [NaN] or zero. *)
Definition nought (a : num) : Prop :=
  a = NaN ∨ ∃ q, a = Fin q ∧ (q == 0)%Q.

Section Reading.
Context (H : Host).

Definition extent_of (rows : list row) (fields : list value)
    (extent : value) : list value :=
  match extent with
  | VArr (e :: es) => e :: es
  | _ =>
      let rangeArr := concat (map (range H rows) fields) in
      [VNum (Math_min rangeArr); VNum (Math_max rangeArr)]
  end.

Definition extent_trace (fields : list value) (extent : value)
    : list access :=
  match extent with
  | VArr (_ :: _) => []
  | _ => map Range fields
  end.

(** What lines 71-78 make of the [bandwidth] option; [None] when the
    call they make throws. *)
Definition bandwidth_value (rows : list row) (fields : list value)
    (bw : value) : option value :=
  let col := getColumn H rows (fields0 fields) in
  match bw with
  | VStr name =>
      match bandwidth H !! name with
      | Some rule => VNum <$> rule col
      | None =>
          match bandwidth_inherited H name with
          | Some member => member col
          | None => VNum <$> nrd H col
          end
      end
  | VFun f => VNum <$> call_bandwidth H f col
  | VNum n => if num_le n (Fin 0) then VNum <$> nrd H col else Some (VNum n)
  | _ => VNum <$> nrd H col
  end.

(** The same as a number, as the sampling loop reads it. *)
Definition bandwidth_of (rows : list row) (fields : list value)
    (bw : value) : num :=
  match bandwidth_value rows fields bw with
  | Some v => to_number H v
  | None => NaN
  end.

(** The estimator is content with the bandwidth [v] in a run over
    [groups]: [v] is a number, or there is no group to estimate. *)
Definition estimator_accepts (v : value) (groups : list (list row)) : bool :=
  match groups with
  | [] => true
  | _ :: _ => isNumber v
  end.

Definition bandwidth_trace (fields : list value) (bw : value)
    : list access :=
  match bw with
  | VNum n => if num_le n (Fin 0) then [GetColumn (fields0 fields)] else []
  | _ => [GetColumn (fields0 fields)]
  end.

(** The kernel a [method] option stands for, when validation accepts
    it. *)
Inductive resolved_method : value → (num → num) → Prop :=
| method_by_name name k :
    kernel H !! name = Some k → resolved_method (VStr name) k
| method_callable f : resolved_method (VFun f) (call_kernel H f).

(** Validation accepts the merged options [o]. *)
Definition validated (o : obj) (fields : list value)
    (as_ : value * value * value) (method : num → num) : Prop :=
  getFields H o = VArr fields ∧ fields ≠ [] ∧
  get o "as" = VArr [as_.1.1; as_.1.2; as_.2] ∧
  resolved_method (get o "method") method.

(** The four ways validation rejects [o] (lines 44-60). *)
Definition rejected (o : obj) : Prop :=
  (isArray (getFields H o) = false ∨ getFields H o = VArr []) ∨
  (∀ key y size, get o "as" ≠ VArr [key; y; size]) ∨
  (∃ name, get o "method" = VStr name ∧ kernel H !! name = None) ∨
  (isString (get o "method") = false ∧ isFunction (get o "method") = false).

(** Shape of an output row: the [y] and [size] properties hold
    sequences of one length, and every entry under [size] is a number
    that passes the threshold [minSize]. *)
Definition row_shape (minSize y size : value) (r : row) : Prop :=
  ∃ ys ss,
    r !! to_key H y = Some (VArr ys) ∧
    r !! to_key H size = Some (VArr ss) ∧
    length ys = length ss ∧
    Forall (λ v, ∃ n, v = VNum n ∧ num_ge n (to_number H minSize) = true) ss.


Definition stride_of (o : obj) (bw : num) : num :=
  if truthy (get o "step") then to_number H (get o "step") else bw.

(** The rows a run writes, given the samples. *)
Definition result_of (o : obj) (rows : list row) (fields : list value)
    (as_ : value * value * value) (method : num → num)
    (seriesValues : list num) : list row :=
  build_result H as_ method
    (bandwidth_of rows fields (get o "bandwidth")) (get o "minSize")
    seriesValues (get o "groupBy")
    (partition H rows (as_sequence (get o "groupBy"))) fields.

(** The samples a run draws, if the loop ends within [fuel]. *)
Definition series_of (fuel : nat) (o : obj) (rows : list row)
    (fields : list value) : option (list num) :=
  let extent := extent_of rows fields (get o "extent") in
  series_from fuel (to_number H (nth 0 extent VUndef))
    (to_number H (nth 1 extent VUndef))
    (stride_of o (bandwidth_of rows fields (get o "bandwidth"))).
End Reading.

(** ** A concrete host and concrete inputs, for evaluation *)

Module Demo.
Definition num_abs (u : num) : num :=
  if num_lt u (Fin 0) then num_neg u else u.

(** The box kernel: one half on [[-1, 1]], zero elsewhere. *)
Definition uniform (u : num) : num :=
  if num_le (num_abs u) (Fin 1) then Fin (1 # 2) else Fin 0.

(** A stand-in bandwidth rule. *)
Definition unit_rule (col : list value) : option num := Some (Fin 1).

Definition number_of (v : value) : num :=
  match v with VNum n => n | _ => NaN end.

Definition name_of (v : value) : string :=
  match v with VStr s => s | _ => "undefined" end.

Definition column (rows : list row) (field : value) : list value :=
  map (λ r, get r (name_of field)) rows.

Definition host : Host := {|
  coerce_number := λ _, NaN;
  coerce_key := λ _, "undefined";
  call_kernel := λ _, uniform;
  call_bandwidth := λ _, unit_rule;
  kernel := {[ "uniform" := uniform ]};
  bandwidth := {[ "nrd" := unit_rule ]};
  nrd := unit_rule;
  bandwidth_nrd := eq_refl;
  bandwidth_inherited := λ name,
    if decide (name ∈ ["toString"; "toLocaleString"])
    then Some (λ _, Some (VStr "[object Object]"))
    else None;
  getFields := λ o, get o "fields";
  range := λ rows field,
    [Math_min (map number_of (column rows field));
     Math_max (map number_of (column rows field))];
  getColumn := column
|}.

Definition int (z : Z) : value := VNum (Fin (inject_Z z)).

(** The view of property P6 and its options, with the box kernel. *)
Definition rows_v : list row :=
  map (λ z, {[ "v" := int z ]}) [1; 1; 2; 3; 3; 3]%Z.

Definition options_v : obj :=
  <["fields" := VArr [VStr "v"]]>
  (<["method" := VStr "uniform"]>
  (<["bandwidth" := int 1]>
  (<["step" := int 1]>
  (<["minSize" := int 0]> ∅)))).

Definition world_v : world :=
  {| heap := [options_v]; dv_rows := rows_v; trace := [] |}.

(** Two groups and two fields, as in property P7. *)
Definition rows_g : list row :=
  [ <["g" := VStr "a"]> (<["v" := int 0]> {[ "u" := int 1 ]});
    <["g" := VStr "b"]> (<["v" := int 1]> {[ "u" := int 1 ]});
    <["g" := VStr "a"]> (<["v" := int 1]> {[ "u" := int 0 ]}) ].

Definition options_g : obj :=
  <["fields" := VArr [VStr "v"; VStr "u"]]>
  (<["groupBy" := VArr [VStr "g"]]>
  (<["method" := VStr "uniform"]>
  (<["bandwidth" := int 1]> ∅))).

Definition world_g : world :=
  {| heap := [options_g]; dv_rows := rows_g; trace := [] |}.

(** One row below the threshold, default options but for the kernel
    and the bandwidth. *)
Definition rows_neg : list row := [ {[ "v" := int (-1) ]} ].

Definition options_neg (as_ : list string) : obj :=
  <["fields" := VArr [VStr "v"]]>
  (<["as" := VArr (VStr <$> as_)]>
  (<["method" := VStr "uniform"]>
  (<["bandwidth" := int 1]> ∅))).

Definition world_neg (as_ : list string) : world :=
  {| heap := [options_neg as_]; dv_rows := rows_neg; trace := [] |}.

(** A view without rows, an explicit extent. *)
Definition options_empty : obj :=
  <["fields" := VArr [VStr "v"; VStr "u"]]>
  (<["extent" := VArr [int 0; int 2]]>
  (<["method" := VStr "uniform"]>
  (<["minSize" := int 0]> ∅))).

Definition world_empty : world :=
  {| heap := [options_empty]; dv_rows := []; trace := [] |}.

(** The options of property P6 with the bandwidth [NaN]. *)
Definition options_nan : obj := <["bandwidth" := VNum NaN]> options_v.

Definition world_nan : world :=
  {| heap := [options_nan]; dv_rows := rows_v; trace := [] |}.
End Demo.

(** ** The data set ([data-set]): registries, views and states

    [DataSet] keeps two class-wide registries, [connectors] and
    [Transforms], and each instance keeps its [views] and [states]; all
    four are plain objects used as dictionaries.  [kde.ts] registers
    its transform there under three names (lines 111-113). *)

(** What a dictionary holds: a value, or an object known by its
    identity (a view). *)
Inductive jsval : Type :=
| Plain (v : value)
| ObjectRef (id : nat).

(** An object born as [{}]: its own properties, and the value that has
    replaced its prototype, if one has; [None] is the initial
    [Object.prototype]. *)
Record dict : Type := Dict {
  own : gmap string jsval;
  proto : option jsval
}.

Definition empty_dict : dict := {| own := ∅; proto := None |}.

(** [isDataSet], [states] and [views] of an instance (the constructor);
    the fourth property, [DataSet], is the class. *)
Record instance : Type := Instance {
  isDataSet : bool;
  states : dict;
  views : dict
}.

(** The instances by reference, and the number of views created. *)
Record store : Type := Store {
  instances : list instance;
  created : nat
}.

(** The class-wide registries. *)
Record registry : Type := Registry {
  connectors : dict;
  Transforms : dict
}.

(** What belongs to the engine and to the event emitter, not to
    [data-set]: the members of [Object.prototype], reads and writes
    that involve a replaced prototype or the [__proto__] accessor, and
    the listeners that [trigger] runs. *)
Record Engine : Type := {
  Object_prototype : string → jsval;
  host_get : string → dict → jsval;
  host_set : string → jsval → dict → dict;
  trigger : string → loc → store → store
}.

Section DataSet.
Context (E : Engine).

(** [d[name]]: an own property, else the member of [Object.prototype]
    of that name ([undefined] when there is none). *)
Definition dict_get (name : string) (d : dict) : jsval :=
  match proto d with
  | None => default (Object_prototype E name) (own d !! name)
  | Some _ => host_get E name d
  end.

(** [d[name] = v]: an own property is written, unless the name is
    [__proto__] or the prototype has been replaced. *)
Definition dict_set (name : string) (v : jsval) (d : dict) : dict :=
  match proto d with
  | None =>
      if decide (name = "__proto__") then host_set E name v d
      else {| own := <[name := v]> (own d); proto := None |}
  | Some _ => host_set E name v d
  end.

Definition registerConnector (name : string) (connector : jsval)
    (r : registry) : registry :=
  {| connectors := dict_set name connector (connectors r);
     Transforms := Transforms r |}.

Definition getConnector (name : string) (r : registry) : jsval :=
  dict_get name (connectors r).

Definition registerTransform (name : string) (Transform : jsval)
    (r : registry) : registry :=
  {| connectors := connectors r;
     Transforms := dict_set name Transform (Transforms r) |}.

Definition getTransform (name : string) (r : registry) : jsval :=
  dict_get name (Transforms r).

(** Lines 111-113 of [kde.ts], for the function value [transform]. *)
Definition register_kde (transform : jsval) (r : registry) : registry :=
  registerTransform "KDE" transform
    (registerTransform "kde" transform
       (registerTransform "kernel-density-estimation" transform r)).

(** [new DataSet()]: the instance gets a [states] and a [views] object
    of its own. *)
Definition new_DataSet (s : store) : loc * store :=
  (length (instances s),
   {| instances := instances s
                   ++ [{| isDataSet := true; states := empty_dict;
                          views := empty_dict |}];
      created := created s |}).

(** [createView(name)]: a new view is made, stored and returned.
    [new DataView()] yields an object that did not exist before; what
    the constructor, defined in [data-view], puts into it is not
    represented. *)
Definition createView (name : string) (me : loc) (s : store)
    : jsval * store :=
  let view := ObjectRef (created s) in
  (view,
   {| instances :=
        alter (λ i, {| isDataSet := isDataSet i; states := states i;
                       views := dict_set name view (views i) |})
              me (instances s);
      created := S (created s) |}).

Definition getView (name : string) (me : loc) (s : store) : jsval :=
  match instances s !! me with
  | Some i => dict_get name (views i)
  | None => Plain VUndef
  end.

Definition setView (name : string) (view : jsval) (me : loc) (s : store)
    : store :=
  {| instances :=
       alter (λ i, {| isDataSet := isDataSet i; states := states i;
                      views := dict_set name view (views i) |})
             me (instances s);
     created := created s |}.

(** [setState(name, value)]: the state is written, then the listeners
    of ['change'] run. *)
Definition setState (name : string) (value : jsval) (me : loc) (s : store)
    : store :=
  trigger E "change" me
    {| instances :=
         alter (λ i, {| isDataSet := isDataSet i;
                        states := dict_set name value (states i);
                        views := views i |})
               me (instances s);
       created := created s |}.
End DataSet.

(** A concrete engine and further concrete inputs, for evaluation. *)
Module Sample.
Definition builtins : list string :=
  ["constructor"; "hasOwnProperty"; "isPrototypeOf";
   "propertyIsEnumerable"; "toLocaleString"; "toString"; "valueOf"].

Definition engine : Engine := {|
  Object_prototype := λ name,
    if decide (name ∈ builtins) then Plain (VFun name) else Plain VUndef;
  host_get := λ _ _, Plain VUndef;
  host_set := λ _ _ d, d;
  trigger := λ _ _ s, s
|}.

Definition empty_registry : registry :=
  {| connectors := empty_dict; Transforms := empty_dict |}.

Definition empty_store : store := {| instances := []; created := 0 |}.

(** The options of property P6 with a bandwidth of zero. *)
Definition options_zero : obj := <["bandwidth" := Demo.int 0]> Demo.options_v.

Definition world_zero : world :=
  {| heap := [options_zero]; dv_rows := Demo.rows_v; trace := [] |}.

(** Options whose [as] has two entries only. *)
Definition options_short_as : obj :=
  <["as" := VArr [VStr "key"; VStr "y"]]> Demo.options_v.

Definition world_short_as : world :=
  {| heap := [options_short_as]; dv_rows := Demo.rows_v; trace := [] |}.

(** Two groups and two fields, the bandwidth left to the default
    rule. *)
Definition options_rule : obj :=
  <["fields" := VArr [VStr "v"; VStr "u"]]>
  (<["groupBy" := VArr [VStr "g"]]>
  (<["method" := VStr "uniform"]> ∅)).

Definition world_rule : world :=
  {| heap := [options_rule]; dv_rows := Demo.rows_g; trace := [] |}.

(** Two groups; no row of the second has the field [v]. *)
Definition rows_missing : list row :=
  [ <["g" := VStr "a"]> {[ "v" := Demo.int 1 ]};
    <["g" := VStr "b"]> {[ "u" := Demo.int 1 ]} ].

Definition options_missing : obj :=
  <["fields" := VArr [VStr "v"]]>
  (<["groupBy" := VArr [VStr "g"]]>
  (<["extent" := VArr [Demo.int 0; Demo.int 2]]>
  (<["method" := VStr "uniform"]>
  (<["bandwidth" := Demo.int 1]> ∅)))).

Definition world_missing : world :=
  {| heap := [options_missing]; dv_rows := rows_missing; trace := [] |}.

(** The same with a threshold of zero. *)
Definition options_missing0 : obj :=
  <["minSize" := Demo.int 0]> options_missing.

Definition world_missing0 : world :=
  {| heap := [options_missing0]; dv_rows := rows_missing; trace := [] |}.

(** The options of property P6 with a negative step. *)
Definition options_backwards : obj :=
  <["step" := Demo.int (-1)]> Demo.options_v.

Definition world_backwards : world :=
  {| heap := [options_backwards]; dv_rows := Demo.rows_v; trace := [] |}.

(** The options of property P6 with, as the bandwidth, the name of a
    member that every object inherits. *)
Definition options_toString : obj :=
  <["bandwidth" := VStr "toString"]> Demo.options_v.

Definition world_toString : world :=
  {| heap := [options_toString]; dv_rows := Demo.rows_v; trace := [] |}.
End Sample.

(** ** Lemmas on the steps *)

Section Steps.
Context (H : Host).

Lemma logs_nil w : logs [] w = w.
Proof. destruct w; unfold logs; simpl. by rewrite app_nil_r. Qed.

Lemma logs_logs l1 l2 w : logs l2 (logs l1 w) = logs (l1 ++ l2) w.
Proof. unfold logs; simpl. by rewrite app_assoc. Qed.

Lemma foldM_range fields : ∀ acc w,
  foldM (λ rangeArr field,
           range ← dv_range H field; mret (rangeArr ++ range))
        acc fields w
  = (Ok (acc ++ concat (map (range H (dv_rows w)) fields)),
     logs (map Range fields) w).
Proof.
  induction fields as [|f fields IH]; intros acc w; simpl.
  - by rewrite app_nil_r, logs_nil.
  - unfold mbind, M_bind at 1. simpl. rewrite IH. simpl.
    unfold log. rewrite <- app_assoc. f_equal.
    unfold logs. simpl. by rewrite <- app_assoc.
Qed.

Lemma resolve_extent_run fields extent w :
  resolve_extent H fields extent w
  = (Ok (extent_of H (dv_rows w) fields extent),
     logs (extent_trace fields extent) w).
Proof.
  unfold resolve_extent, extent_of, extent_trace.
  destruct extent as [| | | | |[|e es]|];
    try (unfold mbind, M_bind; rewrite foldM_range; reflexivity).
  by rewrite logs_nil.
Qed.

Lemma resolve_bandwidth_run fields bw w :
  resolve_bandwidth H fields bw w
  = (match bandwidth_value H (dv_rows w) fields bw with
     | Some v => Ok v
     | None => Fault
     end,
     logs (bandwidth_trace fields bw) w).
Proof.
  assert (Hcall : ∀ r : list value → option value,
    (col ← dv_getColumn H (fields0 fields); returned (r col)) w
    = (match r (getColumn H (dv_rows w) (fields0 fields)) with
       | Some v => Ok v
       | None => Fault
       end, logs [GetColumn (fields0 fields)] w)).
  { intros r. unfold mbind, M_bind, dv_getColumn, returned.
    by destruct (r _). }
  unfold resolve_bandwidth, bandwidth_value, bandwidth_trace.
  destruct bw as [| | |n|name| |f];
    try apply (Hcall (λ col, VNum <$> nrd H col)).
  - destruct (num_le n (Fin 0));
      [apply (Hcall (λ col, VNum <$> nrd H col))|].
    unfold mret, M_ret. by rewrite logs_nil.
  - destruct (bandwidth H !! name) as [rule|];
      [apply (Hcall (λ col, VNum <$> rule col))|].
    destruct (bandwidth_inherited H name) as [member|];
      [apply (Hcall member)|apply (Hcall (λ col, VNum <$> nrd H col))].
  - apply (Hcall (λ col, VNum <$> call_bandwidth H f col)).
Qed.

Lemma build_rows_fields as_ method n minSize series groupBy group fields :
  ∀ acc w,
    foldM (λ result field,
             m ← estimator_bandwidth (VNum n);
             mret (result
                   ++ [density_row H as_ method m minSize series groupBy
                         group field]))
          acc fields w
    = (Ok (acc ++ map (density_row H as_ method n minSize series groupBy
                         group) fields), w).
Proof.
  induction fields as [|f fields IH]; intros acc w; simpl.
  - by rewrite app_nil_r.
  - unfold mbind, M_bind at 1. simpl. rewrite IH.
    by rewrite <- app_assoc.
Qed.

Lemma build_rows_groups as_ method n minSize series groupBy groups fields :
  ∀ acc w,
    foldM (λ result group,
             foldM (λ result field,
                      m ← estimator_bandwidth (VNum n);
                      mret (result
                            ++ [density_row H as_ method m minSize series
                                  groupBy group field]))
                   result fields)
          acc groups w
    = (Ok (acc ++ build_result H as_ method n minSize series groupBy
                    groups fields), w).
Proof.
  induction groups as [|g groups IH]; intros acc w; cbn [foldM].
  - unfold build_result. simpl. by rewrite app_nil_r.
  - unfold mbind at 1, M_bind at 1. rewrite build_rows_fields, IH.
    unfold build_result. simpl. by rewrite <- app_assoc.
Qed.

(** The loops of lines 84-106 as a whole: the rows for the number the
    estimator is given, or its exception at the first row. *)
Lemma build_rows_run as_ method v minSize series groupBy groups fields w :
  fields ≠ [] →
  build_rows H as_ method v minSize series groupBy groups fields w
  = if estimator_accepts v groups
    then (Ok (build_result H as_ method (to_number H v) minSize series
                groupBy groups fields), w)
    else (Fault, w).
Proof.
  intros Hne. unfold build_rows.
  destruct groups as [|g groups]; [reflexivity|].
  destruct v as [| | |n| | |];
    try (destruct fields as [|field0 fields']; [done|reflexivity]).
  apply (build_rows_groups _ _ _ _ _ _ (g :: groups) _ []).
Qed.
End Steps.

Section Runs.
Context (H : Host).

Lemma mix_empty (d : obj) : mix d ∅ = d.
Proof. unfold mix. by rewrite map_filter_empty, (left_id_L ∅ (∪)). Qed.

(** Line 42 leaves every object that was there in place and adds the
    merged one; the rest of the transform runs on the merged
    options. *)
Lemma transform_prelude fuel options w :
  transform H fuel options w
  = pipeline H fuel (merged w options)
      {| heap := heap w ++ [merged w options];
         dv_rows := dv_rows w; trace := trace w |}.
Proof.
  unfold transform, alloc, deref, assign, update, load.
  unfold mbind, M_bind, mret, M_ret. simpl.
  assert (Hm : foldl mix ∅ (omap id [Some DEFAULT_OPTIONS;
                                     (heap w ++ [∅]) !! options])
               = merged w options).
  { unfold merged. destruct (decide (options < length (heap w))%nat) as [Hlt|Hge].
    - by rewrite lookup_app_l.
    - rewrite (lookup_ge_None_2 (heap w)) by lia.
      destruct (decide (options = length (heap w))) as [->|Hne].
      + rewrite list_lookup_middle by done. simpl. by rewrite mix_empty.
      + rewrite lookup_ge_None_2; [done|]. rewrite length_app. simpl. lia. }
  replace (alter _ (length (heap w)) (heap w ++ [∅]))
    with (heap w ++ [merged w options]).
  - by rewrite list_lookup_middle.
  - rewrite <- (Nat.add_0_r (length (heap w))) at 1.
    rewrite alter_app_r. simpl in Hm |- *. by rewrite Hm.
Qed.

(** A run on options that validation accepts: the call of a member
    that is no rule may throw; the sampling loop may not end; the
    estimator may refuse its bandwidth; otherwise the rows are
    written. *)
Lemma pipeline_valid fuel o w fields as_ method :
  validated H o fields as_ method →
  pipeline H fuel o w
  = let w1 := logs (extent_trace fields (get o "extent")
                    ++ bandwidth_trace fields (get o "bandwidth")) w in
    match bandwidth_value H (dv_rows w) fields (get o "bandwidth") with
    | None => (Fault, w1)
    | Some v =>
        match series_of H fuel o (dv_rows w) fields with
        | None => (Diverge, w1)
        | Some s =>
            if estimator_accepts v
                 (partition H (dv_rows w) (as_sequence (get o "groupBy")))
            then
              let result := result_of H o (dv_rows w) fields as_ method s in
              (Ok (), {| heap := heap w; dv_rows := result;
                         trace := trace w1 ++ [SetRows result] |})
            else (Fault, w1)
        end
    end.
Proof.
  intros (Hf & Hne & Has & Hm). destruct as_ as [[key y] size]. simpl in Has.
  unfold pipeline. rewrite Hf, Has.
  destruct fields as [|f fs]; [done|].
  unfold mbind, M_bind. simpl check_fields. simpl check_as.
  unfold mret at 1 2, M_ret at 1 2.
  assert (Hr : ∀ w', resolve_method H (get o "method") w' = (Ok method, w')).
  { intros w'. inversion Hm as [name k Hk Heq|g Heq]; subst; simpl.
    - by rewrite Hk.
    - done. }
  rewrite Hr, resolve_extent_run, resolve_bandwidth_run, logs_logs.
  unfold series_of, result_of, bandwidth_of, stride_of. simpl dv_rows.
  destruct (bandwidth_value H (dv_rows w) (f :: fs) (get o "bandwidth"))
    as [v|]; [|reflexivity].
  unfold getSeriesValues.
  destruct (series_from _ _ _ _) as [s|]; [|reflexivity].
  unfold mret at 1, M_ret at 1, read_rows. simpl dv_rows.
  rewrite build_rows_run by done.
  destruct (estimator_accepts v _); reflexivity.
Qed.

(** The run completes when the bandwidth is one the estimator accepts
    and the sampling loop ends within the fuel. *)
Lemma pipeline_completes fuel o w fields as_ method v s :
  validated H o fields as_ method →
  bandwidth_value H (dv_rows w) fields (get o "bandwidth") = Some v →
  estimator_accepts v (partition H (dv_rows w) (as_sequence (get o "groupBy")))
  = true →
  series_of H fuel o (dv_rows w) fields = Some s →
  pipeline H fuel o w
  = (Ok (), {| heap := heap w;
               dv_rows := result_of H o (dv_rows w) fields as_ method s;
               trace := (trace w ++ extent_trace fields (get o "extent")
                         ++ bandwidth_trace fields (get o "bandwidth"))
                        ++ [SetRows (result_of H o (dv_rows w) fields as_
                                       method s)] |}).
Proof.
  intros Hv Hb Ha Hs. rewrite (pipeline_valid _ _ _ _ _ _ Hv).
  simpl. rewrite Hb, Hs, Ha. by rewrite <- !app_assoc.
Qed.

Lemma pipeline_rejected fuel o w :
  rejected H o → ∃ e, pipeline H fuel o w = (Throw e, w).
Proof.
  unfold rejected, pipeline. intros Hrej.
  unfold mbind, M_bind.
  destruct (getFields H o) as [| | | | |[|f fs]|] eqn:Hf;
    try (eexists; reflexivity). simpl.
  destruct (get o "as") as [| | | | |[|k [|y [|s [|? ?]]]]|] eqn:Has;
    try (eexists; reflexivity). simpl.
  destruct (get o "method") as [| | | |name| |g] eqn:Hm;
    try (eexists; reflexivity); simpl.
  - destruct (kernel H !! name) eqn:Hk; [|eexists; reflexivity].
    exfalso. destruct Hrej as [[?|?]|[Hrej|[(n' & Hn' & Hk')|[? ?]]]];
      try done.
    + by apply (Hrej k y s).
    + congruence.
  - exfalso. destruct Hrej as [[?|?]|[Hrej|[(n' & Hn' & Hk')|[? ?]]]];
      try done.
    by apply (Hrej k y s).
Qed.

Lemma validated_or_rejected o :
  (∃ fields as_ method, validated H o fields as_ method) ∨ rejected H o.
Proof.
  unfold validated, rejected.
  destruct (getFields H o) as [| | | | |[|f fs]|] eqn:Hf;
    try (right; left; by eauto).
  destruct (get o "as") as [| | | | |[|k [|y [|s [|? ?]]]]|] eqn:Has;
    try (right; right; left; by intros).
  destruct (get o "method") as [| | | |name| |g] eqn:Hm;
    try (right; right; right; right; by eauto).
  - destruct (kernel H !! name) as [kf|] eqn:Hk.
    + left. exists (f :: fs), (k, y, s), kf.
      repeat split; try done. by constructor.
    + right; right; right; left. eauto.
  - left. exists (f :: fs), (k, y, s), (call_kernel H g).
    repeat split; try done. constructor.
Qed.

Lemma validated_not_rejected o fields as_ method :
  validated H o fields as_ method → ¬ rejected H o.
Proof.
  intros (Hf & Hne & Has & Hm) [[Hr|Hr]|[Hr|[(n & Hn & Hk)|[Hs Hfn]]]].
  - by rewrite Hf in Hr.
  - rewrite Hf in Hr. congruence.
  - by eapply Hr.
  - rewrite Hn in Hm. inversion Hm; congruence.
  - inversion Hm as [? ? ? Heq|? Heq]; rewrite <- Heq in *; done.
Qed.
End Runs.

(** Every run has one of four shapes: validation rejects the options
    and throws with the view untouched; or the sampling loop does not
    end within the fuel; or a collaborator raises an exception; or the
    run completes and writes its result. *)
Lemma transform_cases (H : Host) (fuel : nat) (options : loc) (w : world) :
  let o := merged w options in
  let h := heap w ++ [o] in
  (rejected H o ∧
   ∃ e, transform H fuel options w
        = (Throw e, {| heap := h; dv_rows := dv_rows w; trace := trace w |}))
  ∨
  (∃ fields as_ method,
     validated H o fields as_ method ∧
     let t := trace w ++ extent_trace fields (get o "extent")
                      ++ bandwidth_trace fields (get o "bandwidth") in
     transform H fuel options w
     = (Diverge, {| heap := h; dv_rows := dv_rows w; trace := t |})
     ∨
     transform H fuel options w
     = (Fault, {| heap := h; dv_rows := dv_rows w; trace := t |})
     ∨
     (∃ s, series_of H fuel o (dv_rows w) fields = Some s ∧
           let result := result_of H o (dv_rows w) fields as_ method s in
           transform H fuel options w
           = (Ok (), {| heap := h; dv_rows := result;
                        trace := t ++ [SetRows result] |}))).
Proof.
  intros o h. rewrite transform_prelude. fold o. fold h.
  destruct (validated_or_rejected H o) as [(fields & as_ & method & Hv)|Hrej].
  - right. exists fields, as_, method. split; [done|].
    rewrite (pipeline_valid H fuel _ _ _ _ _ Hv). simpl.
    destruct (bandwidth_value H (dv_rows w) fields (get o "bandwidth"))
      as [v|].
    + destruct (series_of H fuel o (dv_rows w) fields) as [s|].
      * destruct (estimator_accepts v _).
        -- right; right. exists s. split; [done|]. unfold logs. simpl.
           by rewrite <- !app_assoc.
        -- right; left. unfold logs. simpl. by rewrite <- ?app_assoc.
      * left. unfold logs. simpl. by rewrite <- ?app_assoc.
    + right; left. unfold logs. simpl. by rewrite <- ?app_assoc.
  - left. split; [done|]. by apply pipeline_rejected.
Qed.

(** Forwards: on validated options, with a bandwidth the estimator
    accepts and a sampling loop that ends within the fuel, the run
    completes. *)
Lemma transform_completes (H : Host) (fuel : nat) (options : loc) (w : world)
    fields as_ method v s :
  let o := merged w options in
  validated H o fields as_ method →
  bandwidth_value H (dv_rows w) fields (get o "bandwidth") = Some v →
  estimator_accepts v (partition H (dv_rows w) (as_sequence (get o "groupBy")))
  = true →
  series_of H fuel o (dv_rows w) fields = Some s →
  transform H fuel options w
  = (Ok (), {| heap := heap w ++ [o];
               dv_rows := result_of H o (dv_rows w) fields as_ method s;
               trace := (trace w ++ extent_trace fields (get o "extent")
                         ++ bandwidth_trace fields (get o "bandwidth"))
                        ++ [SetRows (result_of H o (dv_rows w) fields as_
                                       method s)] |}).
Proof.
  intros o Hv Hb Ha Hs. rewrite transform_prelude. fold o.
  by rewrite (pipeline_completes H fuel o _ fields as_ method v s).
Qed.

(** ** Validation (lines 44-60) *)

(** C1: the transform fails with one of the validation errors exactly
    when the merged options are rejected: the resolved [fields] is not
    a sequence (a missing one included) or is empty, or [as] is not a
    sequence of exactly three entries, or [method] is a string that
    names no kernel, or [method] is neither a string nor a callable.
    When it fails, the view has not been read or written. *)
Theorem C1_config_error_iff_rejected (H : Host) (fuel : nat) (options : loc)
    (w : world) :
  ((∃ e w', transform H fuel options w = (Throw e, w'))
   ↔ rejected H (merged w options)) ∧
  (∀ e w', transform H fuel options w = (Throw e, w') →
           dv_rows w' = dv_rows w ∧ trace w' = trace w).
Proof.
  destruct (transform_cases H fuel options w)
    as [[Hrej [e He]]|(fields & as_ & method & Hv & [He|[He|(s & _ & He)]])];
    rewrite He.
  - split; [split; [done|eauto]|]. by intros e' w' [= <- <-].
  - split; [split|]; try by intros; simplify_eq.
    + by intros (e & w' & ?).
    + intros Hrej. by apply validated_not_rejected in Hv.
  - split; [split|]; try by intros; simplify_eq.
    + by intros (e & w' & ?).
    + intros Hrej. by apply validated_not_rejected in Hv.
  - split; [split|]; try by intros; simplify_eq.
    + by intros (e & w' & ?).
    + intros Hrej. by apply validated_not_rejected in Hv.
Qed.

(** ** Effects on the view and on the caller's record *)

Lemma extent_trace_no_SetRows fields extent a :
  a ∈ extent_trace fields extent → ¬ is_SetRows a ∧ ¬ is_GetColumn a.
Proof.
  unfold extent_trace. intros Ha.
  assert (Hr : a ∈ map Range fields → ¬ is_SetRows a ∧ ¬ is_GetColumn a).
  { intros (f & -> & _)%list_elem_of_fmap. simpl. tauto. }
  destruct extent as [| | | | |[|e es]|]; try by apply Hr.
  by apply elem_of_nil in Ha.
Qed.

Lemma bandwidth_trace_cases fields bw :
  bandwidth_trace fields bw = [] ∨
  bandwidth_trace fields bw = [GetColumn (nth 0 fields VUndef)].
Proof.
  unfold bandwidth_trace, fields0.
  destruct bw as [| | |n| | |]; try by right.
  destruct (num_le n (Fin 0)); [by right|by left].
Qed.

Lemma bandwidth_trace_no_SetRows fields bw a :
  a ∈ bandwidth_trace fields bw → ¬ is_SetRows a.
Proof.
  destruct (bandwidth_trace_cases fields bw) as [->| ->].
  - by intros ?%elem_of_nil.
  - intros ->%list_elem_of_singleton. simpl. tauto.
Qed.

(** C9: the rows of the view are assigned once, as the last step of a
    completed run, with the whole result; a run that throws or does not
    complete leaves them as they were and never assigns them. *)
Theorem C9_rows_replaced_once_at_end (H : Host) (fuel : nat) (options : loc)
    (w : world) :
  ∃ reads,
    (∀ a, a ∈ reads → ¬ is_SetRows a) ∧
    match transform H fuel options w with
    | (Ok _, w') =>
        ∃ fields as_ method s,
          validated H (merged w options) fields as_ method ∧
          series_of H fuel (merged w options) (dv_rows w) fields = Some s ∧
          let result :=
            result_of H (merged w options) (dv_rows w) fields as_ method s in
          trace w' = trace w ++ reads ++ [SetRows result] ∧
          dv_rows w' = result
    | (_, w') => trace w' = trace w ++ reads ∧ dv_rows w' = dv_rows w
    end.
Proof.
  destruct (transform_cases H fuel options w)
    as [[Hrej [e He]]|(fields & as_ & method & Hv & [He|[He|(s & Hs & He)]])];
    rewrite He.
  - exists []. split; [by intros a ?%elem_of_nil|]. simpl.
    by rewrite app_nil_r.
  - exists (extent_trace fields (get (merged w options) "extent") ++
            bandwidth_trace fields (get (merged w options) "bandwidth")).
    split; [|done].
    intros a [Ha|Ha]%elem_of_app.
    + by apply extent_trace_no_SetRows in Ha as [? _].
    + by apply bandwidth_trace_no_SetRows in Ha.
  - exists (extent_trace fields (get (merged w options) "extent") ++
            bandwidth_trace fields (get (merged w options) "bandwidth")).
    split; [|done].
    intros a [Ha|Ha]%elem_of_app.
    + by apply extent_trace_no_SetRows in Ha as [? _].
    + by apply bandwidth_trace_no_SetRows in Ha.
  - exists (extent_trace fields (get (merged w options) "extent") ++
            bandwidth_trace fields (get (merged w options) "bandwidth")).
    split.
    + intros a [Ha|Ha]%elem_of_app.
      * by apply extent_trace_no_SetRows in Ha as [? _].
      * by apply bandwidth_trace_no_SetRows in Ha.
    + exists fields, as_, method, s. simpl.
      split_and!; try done. by rewrite <- !app_assoc.
Qed.

(** C10: the record the caller passes is not written: after the run,
    completed or not, the caller's reference holds the record it held
    before, and the merged options sit in one fresh object. *)
Theorem C10_caller_options_unchanged (H : Host) (fuel : nat) (options : loc)
    (w : world) (record : obj) :
  heap w !! options = Some record →
  heap (transform H fuel options w).2 !! options = Some record ∧
  heap (transform H fuel options w).2 = heap w ++ [merged w options].
Proof.
  intros Hrec.
  assert (Hh : heap (transform H fuel options w).2
               = heap w ++ [merged w options]).
  { destruct (transform_cases H fuel options w)
      as [[_ [e He]]|(fields & as_ & method & _ & [He|[He|(s & _ & He)]])];
      by rewrite He. }
  split; [|done]. rewrite Hh. rewrite lookup_app_l; [done|].
  by eapply lookup_lt_Some.
Qed.

Lemma C10_caller_options_unchanged_witness :
  heap (transform Demo.host 8 0 Demo.world_v).2 !! 0 = Some Demo.options_v ∧
  heap (transform Demo.host 8 0 Demo.world_v).2
  = heap Demo.world_v ++ [merged Demo.world_v 0].
Proof.
  apply (C10_caller_options_unchanged Demo.host 8 0 Demo.world_v
           Demo.options_v).
  reflexivity.
Defined.

(** ** The output row of one group and one field (lines 87-104) *)

Section Rows.
Context (H : Host).

Lemma push_lookup_eq k v (r : row) l :
  r !! k = Some (VArr l) → push k v r !! k = Some (VArr (l ++ [v])).
Proof. intros Hk. unfold push. rewrite Hk. apply lookup_insert_eq. Qed.

Lemma push_lookup_ne k k' v (r : row) :
  k ≠ k' → push k v r !! k' = r !! k'.
Proof.
  intros Hne. unfold push.
  destruct (r !! k) as [[| | | | |l|]|]; try done.
  by apply lookup_insert_ne.
Qed.


Lemma sample_loop_arrays ky ks pdf m series : ∀ (r : row) ys ss,
  ky ≠ ks →
  r !! ky = Some (VArr ys) → r !! ks = Some (VArr ss) →
  foldl (sample_step ky ks pdf m) r series !! ky
  = Some (VArr (ys ++ map VNum (kept pdf m series))) ∧
  foldl (sample_step ky ks pdf m) r series !! ks
  = Some (VArr (ss ++ map (λ x, VNum (pdf x)) (kept pdf m series))).
Proof.
  induction series as [|x series IH]; intros r ys ss Hne Hy Hs; simpl.
  - by rewrite !app_nil_r.
  - unfold sample_step at 2 4. destruct (num_ge (pdf x) m) eqn:Hge.
    + destruct (IH (push ks (VNum (pdf x)) (push ky (VNum x) r))
                  (ys ++ [VNum x]) (ss ++ [VNum (pdf x)]) Hne) as [IHy IHs].
      * rewrite push_lookup_ne by done. by apply push_lookup_eq.
      * apply push_lookup_eq. by rewrite push_lookup_ne.
      * rewrite IHy, IHs. simpl. by rewrite <- !app_assoc.
    + by apply IH.
Qed.

Lemma sample_loop_none ky ks pdf m series (r : row) :
  (∀ x, x ∈ series → num_ge (pdf x) m = false) →
  foldl (sample_step ky ks pdf m) r series = r.
Proof.
  revert r. induction series as [|x series IH]; intros r Hall; simpl; [done|].
  unfold sample_step at 2. rewrite Hall by apply list_elem_of_here.
  apply IH. intros y Hy. apply Hall. by apply list_elem_of_further.
Qed.

Lemma density_row_unfold key y size method bw minSize series groupBy
    group field :
  density_row H (key, y, size) method bw minSize series groupBy group field
  = foldl (sample_step (to_key H y) (to_key H size)
             (kernelDensityEstimation H
                (map (λ item, get item (to_key H field)) group) method bw)
             (to_number H minSize))
      (<[to_key H size := VArr []]>
         (<[to_key H y := VArr []]>
            (<[to_key H key := field]>
               (pick H (head group) (as_sequence groupBy)))))
      series.
Proof. reflexivity. Qed.


(** The estimate of an empty sample is no number: the sum [0] is
    divided by the sample count [0]. *)
Lemma kernelDensityEstimation_nil method bw x :
  kernelDensityEstimation H [] method bw x = NaN.
Proof.
  unfold kernelDensityEstimation. simpl.
  destruct bw as [| |q|]; simpl; try reflexivity.
  destruct (Qeq_bool q 0); reflexivity.
Qed.

Lemma num_ge_NaN m : num_ge NaN m = false.
Proof. reflexivity. Qed.
End Rows.

(** A completed run, read backwards. *)
Lemma transform_Ok_inv (H : Host) (fuel : nat) (options : loc) (w w' : world) :
  transform H fuel options w = (Ok (), w') →
  ∃ fields as_ method s,
    validated H (merged w options) fields as_ method ∧
    series_of H fuel (merged w options) (dv_rows w) fields = Some s ∧
    w' = {| heap := heap w ++ [merged w options];
            dv_rows := result_of H (merged w options) (dv_rows w)
                         fields as_ method s;
            trace := (trace w
                      ++ extent_trace fields (get (merged w options) "extent")
                      ++ bandwidth_trace fields
                           (get (merged w options) "bandwidth"))
                     ++ [SetRows (result_of H (merged w options) (dv_rows w)
                                    fields as_ method s)] |}.
Proof.
  intros Hrun.
  destruct (transform_cases H fuel options w)
    as [[_ [e He]]|(fields & as_ & method & Hv & [He|[He|(s & Hs & He)]])];
    rewrite He in Hrun; try discriminate.
  exists fields, as_, method, s. split_and!; try done. by injection Hrun.
Qed.

Lemma elem_of_build_result (H : Host) as_ method bw minSize series groupBy
    groups fields (r : row) :
  r ∈ build_result H as_ method bw minSize series groupBy groups fields ↔
  ∃ group field,
    group ∈ groups ∧ field ∈ fields ∧
    r = density_row H as_ method bw minSize series groupBy group field.
Proof.
  unfold build_result. rewrite list_elem_of_In, in_flat_map. split.
  - intros (group & Hg & Hr). apply in_map_iff in Hr as (field & <- & Hf).
    exists group, field. by rewrite !list_elem_of_In.
  - intros (group & field & Hg & Hf & ->). exists group.
    rewrite <- list_elem_of_In. split; [done|].
    apply in_map. by rewrite <- list_elem_of_In.
Qed.


(** With distinct names for [y] and [size], each row holds the kept
    samples under [y] and their densities under [size]. *)
Lemma density_row_shape (H : Host) key y size method bw minSize series groupBy
    group field :
  to_key H y ≠ to_key H size →
  row_shape H minSize y size
    (density_row H (key, y, size) method bw minSize series groupBy group field).
Proof.
  intros Hne. rewrite density_row_unfold.
  set (pdf := kernelDensityEstimation H _ method bw).
  destruct (sample_loop_arrays (to_key H y) (to_key H size) pdf
              (to_number H minSize) series
              (<[to_key H size := VArr []]>
                 (<[to_key H y := VArr []]>
                    (<[to_key H key := field]>
                       (pick H (head group) (as_sequence groupBy)))))
              [] [] Hne) as [Hy Hs].
  - rewrite lookup_insert_ne by done. apply lookup_insert_eq.
  - apply lookup_insert_eq.
  - eexists _, _. split; [exact Hy|]. split; [exact Hs|]. simpl. split.
    + by rewrite !length_map.
    + apply Forall_forall. intros v Hv.
      apply list_elem_of_In, in_map_iff in Hv as (x & <- & Hx).
      exists (pdf x). split; [done|].
      unfold kept in Hx. by apply filter_In in Hx as [_ Hx].
Qed.

(** ** Shape of the output rows *)

(** C2 (amended): in every output row of a completed run whose [as]
    names the [y] and [size] properties differently, the sequences
    under [y] and [size] have equal length and every entry under
    [size] is at least the resolved [minSize]. *)
Theorem C2_row_shape_distinct_names (H : Host) (fuel : nat) (options : loc)
    (w w' : world) (key y size : value) :
  transform H fuel options w = (Ok (), w') →
  get (merged w options) "as" = VArr [key; y; size] →
  to_key H y ≠ to_key H size →
  Forall (row_shape H (get (merged w options) "minSize") y size) (dv_rows w').
Proof.
  intros Hrun Has Hne.
  apply transform_Ok_inv in Hrun
    as (fields & [[key' y'] size'] & method & s & Hv & _ & ->).
  destruct Hv as (_ & _ & Has' & _). simpl in Has'.
  rewrite Has in Has'. injection Has' as <- <- <-. simpl.
  apply Forall_forall. intros r Hr. unfold result_of in Hr.
  apply elem_of_build_result in Hr as (group & field & _ & _ & ->).
  by apply density_row_shape.
Qed.

Lemma C2_row_shape_distinct_names_witness :
  transform Demo.host 8 0 Demo.world_v
  = (Ok (), (transform Demo.host 8 0 Demo.world_v).2) ∧
  get (merged Demo.world_v 0) "as" = VArr [VStr "key"; VStr "y"; VStr "size"] ∧
  to_key Demo.host (VStr "y") ≠ to_key Demo.host (VStr "size") ∧
  Forall (row_shape Demo.host (get (merged Demo.world_v 0) "minSize")
            (VStr "y") (VStr "size"))
         (dv_rows (transform Demo.host 8 0 Demo.world_v).2).
Proof.
  assert (Hrun : transform Demo.host 8 0 Demo.world_v
                 = (Ok (), (transform Demo.host 8 0 Demo.world_v).2))
    by (vm_compute; reflexivity).
  assert (Has : get (merged Demo.world_v 0) "as"
                = VArr [VStr "key"; VStr "y"; VStr "size"])
    by (vm_compute; reflexivity).
  assert (Hne : to_key Demo.host (VStr "y") ≠ to_key Demo.host (VStr "size"))
    by (simpl; discriminate).
  split; [exact Hrun|]. split; [exact Has|]. split; [exact Hne|].
  exact (C2_row_shape_distinct_names Demo.host 8 0 Demo.world_v _
           (VStr "key") (VStr "y") (VStr "size") Hrun Has Hne).
Defined.

(** C2 as stated fails: with [as = ['key', 'y', 'y']] both sequences
    are one array, which receives the samples as well as the
    densities; the sample [-1] is below the threshold [0.01]. *)
Lemma C2_counterexample :
  ¬ (∀ (H : Host) (fuel : nat) (options : loc) (w w' : world)
       (key y size : value),
       transform H fuel options w = (Ok (), w') →
       get (merged w options) "as" = VArr [key; y; size] →
       Forall (row_shape H (get (merged w options) "minSize") y size)
              (dv_rows w')).
Proof.
  intros Hall.
  specialize (Hall Demo.host 8 0 (Demo.world_neg ["key"; "y"; "y"])
                (transform Demo.host 8 0
                   (Demo.world_neg ["key"; "y"; "y"])).2
                (VStr "key") (VStr "y") (VStr "y")).
  assert (Hrows : dv_rows (transform Demo.host 8 0
                             (Demo.world_neg ["key"; "y"; "y"])).2
                  = [ <["key" := VStr "v"]>
                        {[ "y" := VArr [VNum (Fin (-1)); VNum (Fin (1 # 2))] ]} ])
    by (vm_compute; reflexivity).
  rewrite Hrows in Hall.
  assert (Hmin : get (merged (Demo.world_neg ["key"; "y"; "y"]) 0) "minSize"
                 = VNum (Fin (1 # 100))) by (vm_compute; reflexivity).
  rewrite Hmin in Hall.
  specialize (Hall ltac:(vm_compute; reflexivity) ltac:(vm_compute; reflexivity)).
  apply Forall_cons in Hall as [(ys & ss & _ & Hss & _ & Hge) _].
  simpl in Hss. rewrite lookup_insert_ne in Hss by discriminate.
  rewrite lookup_singleton_eq in Hss. injection Hss as <-.
  apply Forall_cons in Hge as [(n & Hn & Hge) _].
  injection Hn as <-. discriminate Hge.
Qed.

(** ** The partition (line 83) *)






Lemma partition_no_groupBy (H : Host) (rows : list row) :
  partition H rows [] = [rows].
Proof. reflexivity. Qed.

(** ** Labels of an output row (lines 87-96) *)




(** ** Numbers: order and extrema *)

Lemma num_le_Fin p q : num_le (Fin p) (Fin q) = true ↔ (p <= q)%Q.
Proof.
  unfold num_le. simpl. rewrite Qle_alt.
  destruct (p ?= q)%Q; split; intros; done.
Qed.

Lemma num_lt_Fin p q : num_lt (Fin p) (Fin q) = true ↔ (p < q)%Q.
Proof.
  unfold num_lt. simpl. rewrite Qlt_alt.
  destruct (p ?= q)%Q; split; intros; done.
Qed.

Lemma num_le_trans a b c :
  num_le a b = true → num_le b c = true → num_le a c = true.
Proof.
  destruct a as [| |p|], b as [| |q|], c as [| |r|]; try done.
  rewrite !num_le_Fin. apply Qle_trans.
Qed.

Lemma num_le_refl a : a ≠ NaN → num_le a a = true.
Proof.
  destruct a as [| |p|]; try done. intros _. apply num_le_Fin, Qle_refl.
Qed.

Lemma min2_cases a b : min2 a b = a ∨ min2 a b = b.
Proof.
  unfold min2. destruct a as [| |p|], b as [| |q|]; simpl; auto.
  destruct (p ?= q)%Q; auto.
Qed.

Lemma max2_cases a b : max2 a b = a ∨ max2 a b = b.
Proof.
  unfold max2. destruct a as [| |p|], b as [| |q|]; simpl; auto.
  destruct (p ?= q)%Q; auto.
Qed.

Lemma min2_le a b :
  a ≠ NaN → b ≠ NaN →
  num_le (min2 a b) a = true ∧ num_le (min2 a b) b = true.
Proof.
  unfold min2. destruct a as [| |p|], b as [| |q|]; simpl; try done;
    intros _ _; try (split; try done; apply num_le_Fin, Qle_refl).
  destruct (p ?= q)%Q eqn:Hc; rewrite !num_le_Fin; split;
    try apply Qle_refl.
  - apply Qle_alt. by rewrite Hc.
  - apply Qle_alt. by rewrite Hc.
  - apply Qlt_le_weak. by apply Qgt_alt.
Qed.

Lemma max2_ge a b :
  a ≠ NaN → b ≠ NaN →
  num_le a (max2 a b) = true ∧ num_le b (max2 a b) = true.
Proof.
  unfold max2. destruct a as [| |p|], b as [| |q|]; simpl; try done;
    intros _ _; try (split; try done; apply num_le_Fin, Qle_refl).
  destruct (p ?= q)%Q eqn:Hc; rewrite !num_le_Fin; split;
    try apply Qle_refl.
  - apply Qle_lteq. right. symmetry. by apply Qeq_alt.
  - apply Qlt_le_weak. by apply Qlt_alt.
  - apply Qlt_le_weak. by apply Qgt_alt.
Qed.

(** [Math.min] and [Math.max] return one of their arguments. *)
Lemma Math_min_elem l : l ≠ [] → Math_min l ∈ l.
Proof.
  induction l as [|a l IH]; [done|]. intros _. unfold Math_min. simpl.
  fold (Math_min l). destruct l as [|b l].
  - replace (min2 a (Math_min [])) with a; [apply list_elem_of_here|].
    by destruct a.
  - destruct (min2_cases a (Math_min (b :: l))) as [->| ->].
    + apply list_elem_of_here.
    + apply list_elem_of_further. by apply IH.
Qed.

Lemma Math_max_elem l : l ≠ [] → Math_max l ∈ l.
Proof.
  induction l as [|a l IH]; [done|]. intros _. unfold Math_max. simpl.
  fold (Math_max l). destruct l as [|b l].
  - replace (max2 a (Math_max [])) with a; [apply list_elem_of_here|].
    by destruct a.
  - destruct (max2_cases a (Math_max (b :: l))) as [->| ->].
    + apply list_elem_of_here.
    + apply list_elem_of_further. by apply IH.
Qed.

Lemma Math_min_not_NaN l : NaN ∉ l → Math_min l ≠ NaN.
Proof.
  intros Hn. destruct l as [|a l]; [done|].
  intros Heq. apply Hn. rewrite <- Heq. by apply Math_min_elem.
Qed.

Lemma Math_max_not_NaN l : NaN ∉ l → Math_max l ≠ NaN.
Proof.
  intros Hn. destruct l as [|a l]; [done|].
  intros Heq. apply Hn. rewrite <- Heq. by apply Math_max_elem.
Qed.

(** Without [NaN] among the arguments they bound every argument. *)
Lemma Math_min_lower l x :
  NaN ∉ l → x ∈ l → num_le (Math_min l) x = true.
Proof.
  induction l as [|a l IH]; intros Hn Hx; [by apply elem_of_nil in Hx|].
  apply not_elem_of_cons in Hn as [Ha Hn].
  unfold Math_min. simpl. fold (Math_min l).
  destruct (min2_le a (Math_min l)) as [Hl Hr];
    [done|by apply Math_min_not_NaN|].
  apply elem_of_cons in Hx as [->|Hx]; [done|].
  eapply num_le_trans; [exact Hr|]. by apply IH.
Qed.

Lemma Math_max_upper l x :
  NaN ∉ l → x ∈ l → num_le x (Math_max l) = true.
Proof.
  induction l as [|a l IH]; intros Hn Hx; [by apply elem_of_nil in Hx|].
  apply not_elem_of_cons in Hn as [Ha Hn].
  unfold Math_max. simpl. fold (Math_max l).
  destruct (max2_ge a (Math_max l)) as [Hl Hr];
    [done|by apply Math_max_not_NaN|].
  apply elem_of_cons in Hx as [->|Hx]; [done|].
  eapply num_le_trans; [|exact Hr]. by apply IH.
Qed.


(** ** The merged options (line 42) *)

Lemma mix_defaults : mix ∅ DEFAULT_OPTIONS = DEFAULT_OPTIONS.
Proof. vm_compute. reflexivity. Qed.

(** An option the caller's record lacks takes its default. *)
Lemma merged_absent (w : world) (options : loc) (k : string) :
  (∀ record, heap w !! options = Some record → record !! k = None) →
  merged w options !! k = DEFAULT_OPTIONS !! k.
Proof.
  intros Habs. unfold merged.
  destruct (heap w !! options) as [record|]; simpl.
  - rewrite mix_defaults. unfold mix. rewrite lookup_union_r; [done|].
    apply map_lookup_filter_None_2. left. by apply Habs.
  - by rewrite mix_defaults.
Qed.

(** An option the caller's record defines overrides the default. *)
Lemma merged_present (w : world) (options : loc) (record : obj) (k : string)
    (v : value) :
  heap w !! options = Some record → record !! k = Some v →
  k ≠ "constructor" → isUndefined v = false →
  merged w options !! k = Some v.
Proof.
  intros Hrec Hk Hc Hu. unfold merged. rewrite Hrec. simpl.
  unfold mix at 1. apply lookup_union_Some_l.
  by apply map_lookup_filter_Some_2.
Qed.

(** ** The extent (lines 62-70) *)

(** C4: in a completed run the samples are drawn from one extent,
    shared by all fields.  When the [extent] option is absent or not a
    non-empty sequence, the extent is the pair of [Math.min] and
    [Math.max] over the ranges of all configured fields put together:
    both are taken among those range values and, unless one of them is
    [NaN], bound them all.  A non-empty [extent] is used as it is. *)
Theorem C4_one_shared_extent (H : Host) (fuel : nat) (options : loc)
    (w w' : world) :
  transform H fuel options w = (Ok (), w') →
  ∃ fields as_ method bw extent s,
    let o := merged w options in
    let rangeArr := concat (map (range H (dv_rows w)) fields) in
    getFields H o = VArr fields ∧
    ((∀ record, heap w !! options = Some record →
                record !! "extent" = None) →
     get o "extent" = VArr []) ∧
    (isArray (get o "extent") = false ∨ get o "extent" = VArr [] →
     extent = [VNum (Math_min rangeArr); VNum (Math_max rangeArr)]) ∧
    (∀ e es, get o "extent" = VArr (e :: es) → extent = e :: es) ∧
    (rangeArr ≠ [] →
     Math_min rangeArr ∈ rangeArr ∧ Math_max rangeArr ∈ rangeArr) ∧
    (NaN ∉ rangeArr →
     Forall (λ x, num_le (Math_min rangeArr) x = true ∧
                  num_le x (Math_max rangeArr) = true) rangeArr) ∧
    series_from fuel (to_number H (nth 0 extent VUndef))
      (to_number H (nth 1 extent VUndef)) (stride_of H o bw) = Some s ∧
    dv_rows w'
    = build_result H as_ method bw (get o "minSize") s (get o "groupBy")
        (partition H (dv_rows w) (as_sequence (get o "groupBy"))) fields.
Proof.
  intros Hrun.
  apply transform_Ok_inv in Hrun as (fields & as_ & method & s & Hv & Hs & ->).
  destruct Hv as (Hf & _ & _ & _).
  exists fields, as_, method,
    (bandwidth_of H (dv_rows w) fields (get (merged w options) "bandwidth")),
    (extent_of H (dv_rows w) fields (get (merged w options) "extent")), s.
  cbn zeta. split_and!; try done.
  - intros Habs. unfold get. by rewrite merged_absent.
  - intros [Hna| ->]; [|done]. unfold extent_of.
    by destruct (get (merged w options) "extent") as [| | | | |[|e es]|].
  - by intros e es ->.
  - intros Hne. split; [by apply Math_min_elem|by apply Math_max_elem].
  - intros Hn. apply Forall_forall. intros x Hx.
    split; [by apply Math_min_lower|by apply Math_max_upper].
Qed.

Lemma C4_one_shared_extent_witness :
  transform Demo.host 8 0 Demo.world_v
  = (Ok (), (transform Demo.host 8 0 Demo.world_v).2) ∧
  ∃ fields as_ method bw extent s,
    let o := merged Demo.world_v 0 in
    let rangeArr :=
      concat (map (range Demo.host (dv_rows Demo.world_v)) fields) in
    getFields Demo.host o = VArr fields ∧
    ((∀ record, heap Demo.world_v !! 0 = Some record →
                record !! "extent" = None) →
     get o "extent" = VArr []) ∧
    (isArray (get o "extent") = false ∨ get o "extent" = VArr [] →
     extent = [VNum (Math_min rangeArr); VNum (Math_max rangeArr)]) ∧
    (∀ e es, get o "extent" = VArr (e :: es) → extent = e :: es) ∧
    (rangeArr ≠ [] →
     Math_min rangeArr ∈ rangeArr ∧ Math_max rangeArr ∈ rangeArr) ∧
    (NaN ∉ rangeArr →
     Forall (λ x, num_le (Math_min rangeArr) x = true ∧
                  num_le x (Math_max rangeArr) = true) rangeArr) ∧
    series_from 8 (to_number Demo.host (nth 0 extent VUndef))
      (to_number Demo.host (nth 1 extent VUndef))
      (stride_of Demo.host o bw) = Some s ∧
    dv_rows (transform Demo.host 8 0 Demo.world_v).2
    = build_result Demo.host as_ method bw (get o "minSize") s
        (get o "groupBy")
        (partition Demo.host (dv_rows Demo.world_v)
           (as_sequence (get o "groupBy"))) fields.
Proof.
  assert (Hrun : transform Demo.host 8 0 Demo.world_v
                 = (Ok (), (transform Demo.host 8 0 Demo.world_v).2))
    by (vm_compute; reflexivity).
  split; [exact Hrun|].
  exact (C4_one_shared_extent Demo.host 8 0 Demo.world_v _ Hrun).
Defined.


(** ** The bandwidth (lines 71-78) *)

Lemma num_lt_0_not_le n : num_lt (Fin 0) n = true → num_le n (Fin 0) = false.
Proof.
  destruct n as [| |q|]; try done.
  rewrite num_lt_Fin. intros Hq.
  destruct (num_le (Fin q) (Fin 0)) eqn:Hle; [|done].
  apply num_le_Fin in Hle. exfalso. by apply (Qlt_not_le _ _ Hq).
Qed.

(** Every value that is no name of a rule or of another member of the
    registry object, no callable and no number above [0], and that is
    not [NaN], is replaced by the default rule applied to the column of
    [fields[0]]. *)
Lemma bandwidth_fallback (H : Host) (rows : list row) (fields : list value)
    (bw : value) :
  (∀ name, bw = VStr name →
           bandwidth H !! name = None ∧ bandwidth_inherited H name = None) →
  isFunction bw = false →
  (∀ n, bw = VNum n → num_lt (Fin 0) n = false ∧ n ≠ NaN) →
  bandwidth_value H rows fields bw
  = VNum <$> nrd H (getColumn H rows (fields0 fields)) ∧
  bandwidth_trace fields bw = [GetColumn (fields0 fields)].
Proof.
  intros Hname Hfun Hnum. unfold bandwidth_value, bandwidth_trace.
  destruct bw as [| | |n|name| |f]; try done.
  - destruct (Hnum n eq_refl) as [Hlt Hnan].
    assert (Hle : num_le n (Fin 0) = true).
    { destruct n as [| |q|]; try done.
      apply num_le_Fin. apply Qnot_lt_le. intros Hq.
      apply num_lt_Fin in Hq. congruence. }
    by rewrite Hle.
  - destruct (Hname name eq_refl) as [-> ->]. done.
Qed.


(** C6, at the bandwidth [NaN]: the test of line 76 lets it pass, so it
    is kept as the bandwidth and the default rule is not applied; no
    column is read.  On the view of property P6 the run then writes one
    row without any sample. *)
Theorem C6_nan_bandwidth_is_kept :
  (∀ (H : Host) (fields : list value) (w : world),
     resolve_bandwidth H fields (VNum NaN) w = (Ok (VNum NaN), w)) ∧
  transform Demo.host 8 0 Demo.world_nan
  = (Ok (),
     {| heap := [Demo.options_nan; merged Demo.world_nan 0];
        dv_rows := [ <["key" := VStr "v"]>
                       (<["y" := VArr []]> {[ "size" := VArr [] ]}) ];
        trace := [ Range (VStr "v");
                   SetRows [ <["key" := VStr "v"]>
                               (<["y" := VArr []]>
                                  {[ "size" := VArr [] ]}) ] ] |}).
Proof.
  split.
  - intros H fields w. reflexivity.
  - vm_compute. reflexivity.
Qed.


(** ** The sample domain (line 79) *)

Lemma increasing_singleton x : increasing [x].
Proof.
  intros i j a b Hij Hi Hj. destruct j as [|j]; [lia|]. done.
Qed.

Lemma increasing_cons x l :
  Forall (λ y, num_lt x y = true) l → increasing l → increasing (x :: l).
Proof.
  intros Hx Hl i j a b Hij Hi Hj.
  destruct j as [|j]; [lia|]. simpl in Hj.
  destruct i as [|i]; simpl in Hi.
  - injection Hi as <-. rewrite Forall_forall in Hx. apply Hx.
    by eapply list_elem_of_lookup_2.
  - apply (Hl i j); [lia|done..].
Qed.

(** More fuel does not change the samples. *)
Lemma series_from_mono (n : nat) : ∀ (m : nat) tmp max stride l,
  (n ≤ m)%nat → series_from n tmp max stride = Some l →
  series_from m tmp max stride = Some l.
Proof.
  induction n as [|n IH]; intros m tmp max stride l Hnm Hl; [done|].
  destruct m as [|m]; [lia|]. simpl in *.
  destruct (num_lt tmp max); [|done].
  destruct (series_from n _ _ _) as [l'|] eqn:Hn; [|done].
  by rewrite (IH m _ _ _ l' ltac:(lia) Hn).
Qed.

(** With a positive stride the loop ends: [n] steps cover a distance
    of [n] strides. *)
Lemma series_from_total (b s : Q) : (0 < s)%Q → ∀ n a,
  (b - a <= inject_Z (Z.of_nat n) * s)%Q →
  ∃ l, series_from (S n) (Fin a) (Fin b) (Fin s) = Some l ∧ series_ok a b l.
Proof.
  intros Hs. induction n as [|n IH]; intros a Hn.
  - assert (Hab : ¬ (a < b)%Q).
    { change (inject_Z (Z.of_nat 0)) with 0%Q in Hn. lra. }
    exists [Fin b]. simpl.
    destruct (num_lt (Fin a) (Fin b)) eqn:Hlt;
      [by apply num_lt_Fin in Hlt|].
    split; [done|]. split_and!; try done.
    + apply increasing_singleton.
    + apply Forall_singleton. exists b. split_and!; [done|lra|by right].
  - destruct (Qlt_le_dec a b) as [Hab|Hba].
    + destruct (IH (a + s)%Q) as (l & Hl & Hinc & Hlast & Hall & Hhd & Hone).
      { rewrite Nat2Z.inj_succ, <- Z.add_1_r, inject_Z_plus in Hn.
        change (inject_Z 1) with 1%Q in Hn. lra. }
      exists (Fin a :: l).
      assert (Hgt : Forall (λ y, num_lt (Fin a) y = true) l).
      { apply Forall_forall. intros y Hy.
        rewrite Forall_forall in Hall.
        destruct (Hall y Hy) as (q & -> & Hqb & Hq).
        apply num_lt_Fin. destruct Hq as [Hq|Hq]; [lra|].
        rewrite (Hone Hq) in Hy. apply list_elem_of_singleton in Hy.
        injection Hy as ->. done. }
      split.
      * change (series_from (S (S n)) (Fin a) (Fin b) (Fin s))
          with (if num_lt (Fin a) (Fin b)
                then cons (Fin a) <$> series_from (S n) (Fin (a + s)) (Fin b)
                                        (Fin s)
                else Some [Fin b]).
        rewrite (proj2 (num_lt_Fin a b) Hab), Hl. done.
      * split_and!.
        -- by apply increasing_cons.
        -- destruct l as [|y l]; [done|]. done.
        -- apply Forall_cons. split.
           ++ exists a. split_and!; [done|lra|left; lra].
           ++ apply Forall_forall. intros y Hy.
              rewrite Forall_forall in Hall, Hgt.
              destruct (Hall y Hy) as (q & -> & Hqb & _).
              specialize (Hgt _ Hy). apply num_lt_Fin in Hgt.
              exists q. split_and!; [done|done|left; lra].
        -- done.
        -- intros Hnab. done.
    + assert (Hab : ¬ (a < b)%Q) by lra.
      exists [Fin b].
      change (series_from (S (S n)) (Fin a) (Fin b) (Fin s))
        with (if num_lt (Fin a) (Fin b)
              then cons (Fin a) <$> series_from (S n) (Fin (a + s)) (Fin b)
                                      (Fin s)
              else Some [Fin b]).
      destruct (num_lt (Fin a) (Fin b)) eqn:Hlt;
        [by apply num_lt_Fin in Hlt|].
      split; [done|]. split_and!; try done.
      * apply increasing_singleton.
      * apply Forall_singleton. exists b. split_and!; [done|lra|by right].
Qed.

Lemma num_eq_Fin p q : num_eq (Fin p) (Fin q) ↔ (p == q)%Q.
Proof.
  unfold num_eq, num_eqb. simpl. rewrite Qeq_alt.
  destruct (p ?= q)%Q; split; intros; done.
Qed.

Lemma steps_cover (a b s : Q) :
  (a <= b)%Q → (0 < s)%Q →
  (b - a <= inject_Z (Z.of_nat (Z.to_nat (Qceiling ((b - a) / s)))) * s)%Q.
Proof.
  intros Hab Hs.
  assert (Hpos : (0 <= (b - a) / s)%Q) by (apply Qle_shift_div_l; lra).
  assert (Hc : (0 ≤ Qceiling ((b - a) / s))%Z).
  { change 0%Z with (Qceiling 0). by apply Qceiling_resp_le. }
  rewrite Z2Nat.id by done.
  pose proof (Qle_ceiling ((b - a) / s)) as Hle.
  apply (Qmult_le_compat_r _ _ s) in Hle; [|lra].
  assert (Heq : ((b - a) / s * s == b - a)%Q) by (field; lra).
  lra.
Qed.

(** The end-to-end example of property P6, with the box kernel: the
    samples [1, 2, 3] and the densities 1/4, 1/2 and 1/3. *)
Example transform_P6 :
  transform Demo.host 8 0 Demo.world_v
  = (Ok (),
     {| heap := [Demo.options_v; merged Demo.world_v 0];
        dv_rows :=
          [ <["key" := VStr "v"]>
              (<["y" := VArr [VNum (Fin 1); VNum (Fin 2); VNum (Fin 3)]]>
                 {[ "size" := VArr [VNum (Fin (12 # 48));
                                    VNum (Fin (192 # 384));
                                    VNum (Fin (32 # 96))] ]}) ];
        trace :=
          [ Range (VStr "v");
            SetRows
              [ <["key" := VStr "v"]>
                  (<["y" := VArr [VNum (Fin 1); VNum (Fin 2); VNum (Fin 3)]]>
                     {[ "size" := VArr [VNum (Fin (12 # 48));
                                        VNum (Fin (192 # 384));
                                        VNum (Fin (32 # 96))] ]}) ] ] |}).
Proof. vm_compute. reflexivity. Qed.

Example series_from_sample :
  series_from 8 (Fin 0) (Fin (5 # 2)) (Fin 1)
  = Some [Fin 0; Fin (0 + 1); Fin (0 + 1 + 1); Fin (5 # 2)].
Proof. reflexivity. Qed.

(** C7: for an extent [[a, b]] with [a ≤ b] and a positive stride [s]
    the sampling loop ends, and its samples are strictly increasing,
    start with [a], end with [b], none of them exceeding [b]; when
    [a = b] they are the single point [a].  The stride is the [step]
    option when that is a number other than zero, and the bandwidth
    when it is zero. *)
Theorem C7_domain_samples (H : Host) (a b s : Q) :
  (a <= b)%Q → (0 < s)%Q →
  (∀ o bw, get o "step" = VNum (Fin s) → stride_of H o bw = Fin s) ∧
  (∀ o bw, get o "step" = VNum (Fin 0) → stride_of H o bw = bw) ∧
  ∃ (n : nat) (l : list num),
    (∀ (fuel : nat) (w : world), (n ≤ fuel)%nat →
       getSeriesValues H fuel [VNum (Fin a); VNum (Fin b)] (Fin s) w
       = (Ok l, w)) ∧
    increasing l ∧
    (∃ x, head l = Some x ∧ num_eq x (Fin a)) ∧
    last l = Some (Fin b) ∧
    Forall (λ x, num_le x (Fin b) = true) l ∧
    ((a == b)%Q → ∃ x, l = [x] ∧ num_eq x (Fin a)).
Proof.
  intros Hab Hs. split_and!.
  - intros o bw Hstep. unfold stride_of. rewrite Hstep. simpl.
    destruct (Qeq_bool s 0) eqn:Hz; [|done].
    apply Qeq_bool_iff in Hz. lra.
  - intros o bw Hstep. unfold stride_of. by rewrite Hstep.
  - destruct (series_from_total b s Hs
                (Z.to_nat (Qceiling ((b - a) / s))) a (steps_cover a b s Hab Hs))
      as (l & Hl & Hinc & Hlast & Hall & Hhd & Hone).
    exists (S (Z.to_nat (Qceiling ((b - a) / s)))), l. split_and!; try done.
    + intros fuel w Hfuel. unfold getSeriesValues. cbn [nth to_number].
      by rewrite (series_from_mono _ fuel _ _ _ l Hfuel Hl).
    + destruct (Qlt_le_dec a b) as [Hlt|Hle].
      * exists (Fin a). split; [by apply Hhd|]. by apply num_eq_Fin.
      * exists (Fin b). rewrite Hone by lra. split; [done|].
        apply num_eq_Fin. lra.
    + apply Forall_forall. intros x Hx. rewrite Forall_forall in Hall.
      destruct (Hall x Hx) as (q & -> & Hq & _). by apply num_le_Fin.
    + intros Heq. exists (Fin b). rewrite Hone by lra. split; [done|].
      apply num_eq_Fin. lra.
Qed.

Lemma C7_domain_samples_witness :
  (0 <= 5 # 2)%Q ∧ (0 < 1)%Q ∧
  (∀ o bw, get o "step" = VNum (Fin 1) → stride_of Demo.host o bw = Fin 1) ∧
  (∀ o bw, get o "step" = VNum (Fin 0) → stride_of Demo.host o bw = bw) ∧
  ∃ (n : nat) (l : list num),
    (∀ (fuel : nat) (w : world), (n ≤ fuel)%nat →
       getSeriesValues Demo.host fuel [VNum (Fin 0); VNum (Fin (5 # 2))]
         (Fin 1) w
       = (Ok l, w)) ∧
    increasing l ∧
    (∃ x, head l = Some x ∧ num_eq x (Fin 0)) ∧
    last l = Some (Fin (5 # 2)) ∧
    Forall (λ x, num_le x (Fin (5 # 2)) = true) l ∧
    ((0 == 5 # 2)%Q → ∃ x, l = [x] ∧ num_eq x (Fin 0)).
Proof.
  assert (Hab : (0 <= 5 # 2)%Q) by (unfold Qle; simpl; lia).
  assert (Hs : (0 < 1)%Q) by reflexivity.
  split; [exact Hab|]. split; [exact Hs|].
  exact (C7_domain_samples Demo.host 0 (5 # 2) 1 Hab Hs).
Defined.


(** ** Further properties of the transform *)

(** The validation reports the first check that fails, in the order
    [fields], [as], [method] (lines 44-60): a bad [fields] is reported
    whatever [as] and [method] are, a bad [as] whatever [method] is. *)
Theorem first_failed_check_is_thrown (H : Host) (fuel : nat) (options : loc)
    (w : world) :
  let o := merged w options in
  let run := (transform H fuel options w).1 in
  ((∀ f fs, getFields H o ≠ VArr (f :: fs)) → run = Throw InvalidFields) ∧
  (∀ f fs, getFields H o = VArr (f :: fs) →
     ((∀ key y size, get o "as" ≠ VArr [key; y; size]) →
      run = Throw InvalidAs) ∧
     (∀ key y size, get o "as" = VArr [key; y; size] →
        (∀ name, get o "method" = VStr name → kernel H !! name = None →
                 run = Throw (InvalidMethod name)) ∧
        (isString (get o "method") = false →
         isFunction (get o "method") = false →
         run = Throw MethodNotFunction))).
Proof.
  intros o run. unfold run. rewrite transform_prelude. fold o.
  unfold pipeline, mbind, M_bind. split.
  - intros Hbad.
    destruct (getFields H o) as [| | | | |[|f fs]|] eqn:Hf; try done.
    by destruct (Hbad f fs).
  - intros f fs ->. cbn [check_fields mret M_ret]. split.
    + intros Hbad.
      destruct (get o "as") as [| | | | |[|k [|y [|s [|? ?]]]]|] eqn:Has;
        try done.
      by destruct (Hbad k y s).
    + intros key y size ->. cbn [check_as mret M_ret]. split.
      * intros name -> Hk. cbn [resolve_method]. by rewrite Hk.
      * intros Hs Hfn.
        by destruct (get o "method") as [| | | | | |].
Qed.

Example first_failed_check_sample :
  (transform Demo.host 8 0 Sample.world_short_as).1 = Throw InvalidAs.
Proof. vm_compute. reflexivity. Qed.

(** The object the transform works on (line 42): for every key, the
    caller's value when the caller's record has one that is not
    [undefined], the default otherwise. *)
Theorem merged_options_lookup (H : Host) (fuel : nat) (options : loc)
    (w : world) (k : string) :
  ∃ o,
    heap (transform H fuel options w).2 !! length (heap w) = Some o ∧
    o !! k
    = match heap w !! options ≫= (λ record : obj, record !! k) with
      | Some v =>
          if isUndefined v || bool_decide (k = "constructor")
          then DEFAULT_OPTIONS !! k
          else Some v
      | None => DEFAULT_OPTIONS !! k
      end.
Proof.
  exists (merged w options). split.
  - assert (Hh : heap (transform H fuel options w).2
                 = heap w ++ [merged w options]).
    { destruct (transform_cases H fuel options w)
        as [[_ [e He]]|(fields & as_ & method & _ & [He|[He|(s & _ & He)]])];
        by rewrite He. }
    rewrite Hh. by apply list_lookup_middle.
  - destruct (heap w !! options) as [record|] eqn:Hrec; simpl.
    + destruct (record !! k) as [v|] eqn:Hk.
      * destruct (isUndefined v) eqn:Hu; simpl.
        { unfold merged. rewrite Hrec. simpl. rewrite mix_defaults.
          unfold mix. rewrite lookup_union_r; [done|].
          apply map_lookup_filter_None_2. right. intros v' Hv' [_ Hnu].
          simpl in Hnu. congruence. }
        case_bool_decide as Hc.
        { unfold merged. rewrite Hrec. simpl. rewrite mix_defaults.
          unfold mix. rewrite lookup_union_r; [done|].
          apply map_lookup_filter_None_2. right. by intros v' Hv' [Hnc _]. }
        by apply (merged_present w options record).
      * apply merged_absent. intros record' Hrec'. congruence.
    + apply merged_absent. intros record' Hrec'. congruence.
Qed.

Lemma density_row_arrays (H : Host) key y size method bw minSize series
    groupBy group field :
  to_key H y ≠ to_key H size →
  let pdf :=
    kernelDensityEstimation H
      (map (λ item, get item (to_key H field)) group) method bw in
  let ys := kept pdf (to_number H minSize) series in
  density_row H (key, y, size) method bw minSize series groupBy group field
    !! to_key H y = Some (VArr (map VNum ys)) ∧
  density_row H (key, y, size) method bw minSize series groupBy group field
    !! to_key H size = Some (VArr (map (λ x, VNum (pdf x)) ys)).
Proof.
  intros Hne pdf ys. rewrite density_row_unfold. fold pdf.
  apply (sample_loop_arrays (to_key H y) (to_key H size) pdf
           (to_number H minSize) series _ [] [] Hne).
  - rewrite lookup_insert_ne by done. apply lookup_insert_eq.
  - apply lookup_insert_eq.
Qed.

Lemma kept_sublist pdf m series : kept pdf m series `sublist_of` series.
Proof.
  unfold kept. induction series as [|x series IH]; simpl; [done|].
  destruct (num_ge (pdf x) m); by constructor.
Qed.

(** With different names for [y] and [size], the row of a group and a
    field holds under [y] the samples whose density passes the
    threshold, in sampling order, and under [size], at the same
    positions, the densities of exactly those samples (lines 88-103). *)
Theorem rows_hold_kept_samples (H : Host) (fuel : nat) (options : loc)
    (w w' : world) (key y size : value) :
  transform H fuel options w = (Ok (), w') →
  get (merged w options) "as" = VArr [key; y; size] →
  to_key H y ≠ to_key H size →
  ∃ fields method bw s,
    let o := merged w options in
    getFields H o = VArr fields ∧
    series_of H fuel o (dv_rows w) fields = Some s ∧
    Forall (λ r : row,
              ∃ group field,
                group ∈ partition H (dv_rows w) (as_sequence (get o "groupBy")) ∧
                field ∈ fields ∧
                let pdf :=
                  kernelDensityEstimation H
                    (map (λ item, get item (to_key H field)) group) method bw in
                let ys := kept pdf (to_number H (get o "minSize")) s in
                ys `sublist_of` s ∧
                r !! to_key H y = Some (VArr (map VNum ys)) ∧
                r !! to_key H size
                = Some (VArr (map (λ x, VNum (pdf x)) ys)))
           (dv_rows w').
Proof.
  intros Hrun Has Hne.
  apply transform_Ok_inv in Hrun
    as (fields & [[key' y'] size'] & method & s & Hv & Hs & ->).
  destruct Hv as (Hf & _ & Has' & _). simpl in Has'.
  rewrite Has in Has'. injection Has' as <- <- <-.
  exists fields, method,
    (bandwidth_of H (dv_rows w) fields (get (merged w options) "bandwidth")), s.
  cbn zeta. split_and!; try done.
  apply Forall_forall. intros r Hr. simpl in Hr. unfold result_of in Hr.
  apply elem_of_build_result in Hr as (group & field & Hg & Hfield & ->).
  exists group, field.
  destruct (density_row_arrays H key y size method
              (bandwidth_of H (dv_rows w) fields
                 (get (merged w options) "bandwidth"))
              (get (merged w options) "minSize") s
              (get (merged w options) "groupBy") group field Hne) as [Hy Hz].
  split_and!; try done. apply kept_sublist.
Qed.

Lemma rows_hold_kept_samples_witness :
  transform Demo.host 8 0 Demo.world_v
  = (Ok (), (transform Demo.host 8 0 Demo.world_v).2) ∧
  get (merged Demo.world_v 0) "as" = VArr [VStr "key"; VStr "y"; VStr "size"] ∧
  to_key Demo.host (VStr "y") ≠ to_key Demo.host (VStr "size") ∧
  ∃ fields method bw s,
    let o := merged Demo.world_v 0 in
    getFields Demo.host o = VArr fields ∧
    series_of Demo.host 8 o (dv_rows Demo.world_v) fields = Some s ∧
    Forall (λ r : row,
              ∃ group field,
                group ∈ partition Demo.host (dv_rows Demo.world_v)
                          (as_sequence (get o "groupBy")) ∧
                field ∈ fields ∧
                let pdf :=
                  kernelDensityEstimation Demo.host
                    (map (λ item, get item (to_key Demo.host field)) group)
                    method bw in
                let ys := kept pdf (to_number Demo.host (get o "minSize")) s in
                ys `sublist_of` s ∧
                r !! to_key Demo.host (VStr "y") = Some (VArr (map VNum ys)) ∧
                r !! to_key Demo.host (VStr "size")
                = Some (VArr (map (λ x, VNum (pdf x)) ys)))
           (dv_rows (transform Demo.host 8 0 Demo.world_v).2).
Proof.
  assert (Hrun : transform Demo.host 8 0 Demo.world_v
                 = (Ok (), (transform Demo.host 8 0 Demo.world_v).2))
    by (vm_compute; reflexivity).
  assert (Has : get (merged Demo.world_v 0) "as"
                = VArr [VStr "key"; VStr "y"; VStr "size"])
    by (vm_compute; reflexivity).
  assert (Hne : to_key Demo.host (VStr "y") ≠ to_key Demo.host (VStr "size"))
    by (simpl; discriminate).
  split; [exact Hrun|]. split; [exact Has|]. split; [exact Hne|].
  exact (rows_hold_kept_samples Demo.host 8 0 Demo.world_v _
           (VStr "key") (VStr "y") (VStr "size") Hrun Has Hne).
Defined.







(** The view is asked for the range of each configured field once, in
    the order of the fields and before any column is read, when the
    [extent] option is not a non-empty sequence; with a non-empty
    [extent] it is not asked for any range (lines 62-70). *)
Theorem range_queried_once_per_field (H : Host) (fuel : nat) (options : loc)
    (w w' : world) :
  transform H fuel options w = (Ok (), w') →
  ∃ fields cols,
    let o := merged w options in
    getFields H o = VArr fields ∧
    Forall is_GetColumn cols ∧
    ((∃ e es, get o "extent" = VArr (e :: es)) →
     trace w' = trace w ++ cols ++ [SetRows (dv_rows w')]) ∧
    ((∀ e es, get o "extent" ≠ VArr (e :: es)) →
     trace w'
     = trace w ++ map Range fields ++ cols ++ [SetRows (dv_rows w')]).
Proof.
  intros Hrun.
  apply transform_Ok_inv in Hrun as (fields & as_ & method & s & Hv & Hs & ->).
  destruct Hv as (Hf & _ & _ & _).
  exists fields, (bandwidth_trace fields (get (merged w options) "bandwidth")).
  cbn zeta. simpl dv_rows. simpl trace. split_and!; try done.
  - destruct (bandwidth_trace_cases fields
                (get (merged w options) "bandwidth")) as [->| ->].
    + constructor.
    + by repeat constructor.
  - intros (e & es & ->). simpl. by rewrite <- !app_assoc.
  - intros Hno. rewrite <- !app_assoc. do 2 f_equal.
    unfold extent_trace.
    destruct (get (merged w options) "extent") as [| | | | |[|e es]|];
      try done.
    by destruct (Hno e es).
Qed.

Lemma range_queried_once_per_field_witness :
  transform Demo.host 8 0 Demo.world_g
  = (Ok (), (transform Demo.host 8 0 Demo.world_g).2) ∧
  ∃ fields cols,
    let o := merged Demo.world_g 0 in
    getFields Demo.host o = VArr fields ∧
    Forall is_GetColumn cols ∧
    ((∃ e es, get o "extent" = VArr (e :: es)) →
     trace (transform Demo.host 8 0 Demo.world_g).2
     = trace Demo.world_g ++ cols
       ++ [SetRows (dv_rows (transform Demo.host 8 0 Demo.world_g).2)]) ∧
    ((∀ e es, get o "extent" ≠ VArr (e :: es)) →
     trace (transform Demo.host 8 0 Demo.world_g).2
     = trace Demo.world_g ++ map Range fields ++ cols
       ++ [SetRows (dv_rows (transform Demo.host 8 0 Demo.world_g).2)]).
Proof.
  assert (Hrun : transform Demo.host 8 0 Demo.world_g
                 = (Ok (), (transform Demo.host 8 0 Demo.world_g).2))
    by (vm_compute; reflexivity).
  split; [exact Hrun|].
  exact (range_queried_once_per_field Demo.host 8 0 Demo.world_g _ Hrun).
Defined.

Lemma num_div_NaN_r a : num_div a NaN = NaN.
Proof. by destruct a. Qed.

Lemma num_ge_NaN_r a : num_ge a NaN = false.
Proof. by destruct a. Qed.

Lemma kernelDensityEstimation_NaN (H : Host) X method x :
  kernelDensityEstimation H X method NaN x = NaN.
Proof. unfold kernelDensityEstimation. by rewrite num_div_NaN_r. Qed.

(** When no sample passes the threshold, the row keeps the two empty
    sequences of lines 95-96, also when [y] and [size] bear one
    name. *)
Lemma density_row_no_sample (H : Host) key y size method bw minSize series
    groupBy group field :
  (∀ x, num_ge (kernelDensityEstimation H
                  (map (λ item, get item (to_key H field)) group) method bw x)
               (to_number H minSize) = false) →
  density_row H (key, y, size) method bw minSize series groupBy group field
    !! to_key H y = Some (VArr []) ∧
  density_row H (key, y, size) method bw minSize series groupBy group field
    !! to_key H size = Some (VArr []).
Proof.
  intros Hno. rewrite density_row_unfold, sample_loop_none by auto.
  split; [|apply lookup_insert_eq].
  destruct (decide (to_key H size = to_key H y)) as [->|Hne].
  - apply lookup_insert_eq.
  - rewrite lookup_insert_ne by done. apply lookup_insert_eq.
Qed.

(** A bandwidth or a threshold that is [NaN] keeps no sample: every
    density, or every comparison with the threshold, fails, and each
    output row holds two empty sequences (lines 76, 88-99). *)
Theorem nan_keeps_no_sample (H : Host) (fuel : nat) (options : loc)
    (w w' : world) (key y size : value) :
  transform H fuel options w = (Ok (), w') →
  get (merged w options) "as" = VArr [key; y; size] →
  get (merged w options) "bandwidth" = VNum NaN ∨
  to_number H (get (merged w options) "minSize") = NaN →
  Forall (λ r : row,
            r !! to_key H y = Some (VArr []) ∧
            r !! to_key H size = Some (VArr []))
         (dv_rows w').
Proof.
  intros Hrun Has Hnan.
  apply transform_Ok_inv in Hrun
    as (fields & [[key' y'] size'] & method & s & Hv & Hs & ->).
  destruct Hv as (Hf & _ & Has' & _). simpl in Has'.
  rewrite Has in Has'. injection Has' as <- <- <-.
  apply Forall_forall. intros r Hr. simpl in Hr. unfold result_of in Hr.
  apply elem_of_build_result in Hr as (group & field & _ & _ & ->).
  apply density_row_no_sample. intros x.
  destruct Hnan as [Hbw|Hmin].
  - unfold bandwidth_of, bandwidth_value. rewrite Hbw. simpl.
    by rewrite kernelDensityEstimation_NaN.
  - rewrite Hmin. apply num_ge_NaN_r.
Qed.

Lemma nan_keeps_no_sample_witness :
  transform Demo.host 8 0 Demo.world_nan
  = (Ok (), (transform Demo.host 8 0 Demo.world_nan).2) ∧
  get (merged Demo.world_nan 0) "as"
  = VArr [VStr "key"; VStr "y"; VStr "size"] ∧
  (get (merged Demo.world_nan 0) "bandwidth" = VNum NaN ∨
   to_number Demo.host (get (merged Demo.world_nan 0) "minSize") = NaN) ∧
  Forall (λ r : row,
            r !! to_key Demo.host (VStr "y") = Some (VArr []) ∧
            r !! to_key Demo.host (VStr "size") = Some (VArr []))
         (dv_rows (transform Demo.host 8 0 Demo.world_nan).2).
Proof.
  assert (Hrun : transform Demo.host 8 0 Demo.world_nan
                 = (Ok (), (transform Demo.host 8 0 Demo.world_nan).2))
    by (vm_compute; reflexivity).
  assert (Has : get (merged Demo.world_nan 0) "as"
                = VArr [VStr "key"; VStr "y"; VStr "size"])
    by (vm_compute; reflexivity).
  assert (Hnan : get (merged Demo.world_nan 0) "bandwidth" = VNum NaN ∨
                 to_number Demo.host (get (merged Demo.world_nan 0) "minSize")
                 = NaN)
    by (left; vm_compute; reflexivity).
  split; [exact Hrun|]. split; [exact Has|]. split; [exact Hnan|].
  exact (nan_keeps_no_sample Demo.host 8 0 Demo.world_nan _
           (VStr "key") (VStr "y") (VStr "size") Hrun Has Hnan).
Defined.


(** ** Runs that complete *)

Lemma estimator_accepts_number n groups :
  estimator_accepts (VNum n) groups = true.
Proof. by destruct groups. Qed.

Lemma bandwidth_of_number (H : Host) rows fields bw n :
  bandwidth_value H rows fields bw = Some (VNum n) →
  bandwidth_of H rows fields bw = n.
Proof. intros Hb. unfold bandwidth_of. by rewrite Hb. Qed.

(** The rows of a run, spelt out: each one is the row set up by lines
    87-96 for its group and field, taken through the sampling loop with
    the estimate that the bandwidth of the run gives for the values of
    the field in the group. *)
Lemma result_of_rows (H : Host) (o : obj) (rows : list row)
    (fields : list value) (key y size : value) (method : num → num)
    (s : list num) :
  result_of H o rows fields (key, y, size) method s
  = flat_map (λ group,
      map (λ field,
             foldl (sample_step (to_key H y) (to_key H size)
                      (kernelDensityEstimation H
                         (map (λ item, get item (to_key H field)) group)
                         method
                         (bandwidth_of H rows fields (get o "bandwidth")))
                      (to_number H (get o "minSize")))
                   (<[to_key H size := VArr []]>
                      (<[to_key H y := VArr []]>
                         (<[to_key H key := field]>
                            (pick H (head group)
                               (as_sequence (get o "groupBy"))))))
                   s)
          fields)
      (partition H rows (as_sequence (get o "groupBy"))).
Proof. reflexivity. Qed.

(** On validated options with a bandwidth that is a number no exception
    is raised: the run completes when the sampling loop ends within the
    fuel, and does not end otherwise. *)
Lemma transform_numeric_bandwidth (H : Host) (fuel : nat) (options : loc)
    (w : world) fields as_ method n :
  let o := merged w options in
  validated H o fields as_ method →
  bandwidth_value H (dv_rows w) fields (get o "bandwidth") = Some (VNum n) →
  match series_of H fuel o (dv_rows w) fields with
  | Some s =>
      transform H fuel options w
      = (Ok (), {| heap := heap w ++ [o];
                   dv_rows := result_of H o (dv_rows w) fields as_ method s;
                   trace := (trace w ++ extent_trace fields (get o "extent")
                             ++ bandwidth_trace fields (get o "bandwidth"))
                            ++ [SetRows (result_of H o (dv_rows w) fields as_
                                           method s)] |})
  | None => (transform H fuel options w).1 = Diverge
  end.
Proof.
  intros o Hv Hb.
  destruct (series_of H fuel o (dv_rows w) fields) as [s|] eqn:Hs.
  - apply (transform_completes H fuel options w fields as_ method (VNum n) s);
      try done.
    apply estimator_accepts_number.
  - rewrite transform_prelude. fold o.
    rewrite (pipeline_valid H fuel o _ fields as_ method Hv). simpl.
    by rewrite Hb, Hs.
Qed.

(** A stride that is not positive never reaches the end of the
    extent. *)
Lemma series_from_backwards (b s : Q) : (s <= 0)%Q → ∀ fuel a,
  (a < b)%Q → series_from fuel (Fin a) (Fin b) (Fin s) = None.
Proof.
  intros Hs. induction fuel as [|fuel IH]; intros a Hab; [done|].
  cbn [series_from]. rewrite (proj2 (num_lt_Fin a b) Hab).
  cbn [num_add]. rewrite IH; [done|lra].
Qed.


(** With a negative step the run of property P6 never completes. *)
Example negative_step_never_completes (fuel : nat) :
  (transform Demo.host fuel 0 Sample.world_backwards).1 = Diverge.
Proof.
  assert (Hv : validated Demo.host (merged Sample.world_backwards 0)
                 [VStr "v"] (VStr "key", VStr "y", VStr "size")
                 Demo.uniform).
  { split; [vm_compute; reflexivity|]. split; [discriminate|].
    split; [vm_compute; reflexivity|].
    replace (get (merged Sample.world_backwards 0) "method")
      with (VStr "uniform") by (vm_compute; reflexivity).
    apply method_by_name. reflexivity. }
  pose proof (transform_numeric_bandwidth Demo.host fuel 0
                Sample.world_backwards _ _ _ (Fin 1) Hv
                ltac:(vm_compute; reflexivity)) as Hrun.
  cbn zeta in Hrun.
  replace (series_of Demo.host fuel (merged Sample.world_backwards 0)
             (dv_rows Sample.world_backwards) [VStr "v"])
    with (series_from fuel (Fin 1) (Fin 3) (Fin (-1))) in Hrun.
  - rewrite series_from_backwards in Hrun; [done|lra|lra].
  - unfold series_of.
    replace (extent_of Demo.host (dv_rows Sample.world_backwards) [VStr "v"]
               (get (merged Sample.world_backwards 0) "extent"))
      with [VNum (Fin 1); VNum (Fin 3)] by (vm_compute; reflexivity).
    replace (stride_of Demo.host (merged Sample.world_backwards 0)
               (bandwidth_of Demo.host (dv_rows Sample.world_backwards)
                  [VStr "v"]
                  (get (merged Sample.world_backwards 0) "bandwidth")))
      with (Fin (-1)) by (vm_compute; reflexivity).
    reflexivity.
Qed.

(** With the name of an inherited member as the bandwidth, the member
    is called on the column of [fields[0]], the estimator refuses what
    it returned, and the rows of the view stay as they were. *)
Example inherited_name_as_bandwidth :
  transform Demo.host 8 0 Sample.world_toString
  = (Fault,
     {| heap := [Sample.options_toString; merged Sample.world_toString 0];
        dv_rows := Demo.rows_v;
        trace := [Range (VStr "v"); GetColumn (VStr "v")] |}).
Proof. vm_compute. reflexivity. Qed.

(** ** One row per group and field (lines 82-106) *)





(** ** One bandwidth for all rows (lines 71-78, 88-92) *)

(** In a completed run lines 71-78 have not thrown, and what they
    resolved is the bandwidth the sampling loop reads. *)
Lemma transform_Ok_bandwidth (H : Host) (fuel : nat) (options : loc)
    (w w' : world) fields as_ method :
  let o := merged w options in
  transform H fuel options w = (Ok (), w') →
  validated H o fields as_ method →
  ∃ v, bandwidth_value H (dv_rows w) fields (get o "bandwidth") = Some v ∧
       bandwidth_of H (dv_rows w) fields (get o "bandwidth") = to_number H v.
Proof.
  intros o Hrun Hv. rewrite transform_prelude in Hrun. fold o in Hrun.
  rewrite (pipeline_valid H fuel o _ fields as_ method Hv) in Hrun.
  simpl in Hrun. unfold bandwidth_of.
  destruct (bandwidth_value H (dv_rows w) fields (get o "bandwidth"))
    as [v|]; [by exists v|done].
Qed.

(** C5: in a completed run one bandwidth [bw] is resolved: what the
    named rule returns for the column of [fields[0]], what the callable
    returns for that column, or the number above [0] as it is; the run
    reads a
    column of the view at most once, and then the one of [fields[0]].
    Every row of every group and field is built with that one value:
    the rows written are, for the [as] names, the kernel and the
    samples of the run, the rows set up by lines 87-96 taken through
    the sampling loop with the estimate of bandwidth [bw]. *)
Theorem C5_bandwidth_resolved_once (H : Host) (fuel : nat) (options : loc)
    (w w' : world) :
  transform H fuel options w = (Ok (), w') →
  ∃ fields key y size method bw s ranges cols,
    let o := merged w options in
    let col := getColumn H (dv_rows w) (nth 0 fields VUndef) in
    validated H o fields (key, y, size) method ∧
    series_of H fuel o (dv_rows w) fields = Some s ∧
    bw = bandwidth_of H (dv_rows w) fields (get o "bandwidth") ∧
    (∀ name rule, get o "bandwidth" = VStr name →
                  bandwidth H !! name = Some rule → rule col = Some bw) ∧
    (∀ f, get o "bandwidth" = VFun f → call_bandwidth H f col = Some bw) ∧
    (∀ n, get o "bandwidth" = VNum n → num_lt (Fin 0) n = true → bw = n) ∧
    trace w' = trace w ++ ranges ++ cols ++ [SetRows (dv_rows w')] ∧
    Forall (λ a, ¬ is_GetColumn a) ranges ∧
    (cols = [] ∨ cols = [GetColumn (nth 0 fields VUndef)]) ∧
    dv_rows w'
    = flat_map (λ group,
        map (λ field,
               foldl (sample_step (to_key H y) (to_key H size)
                        (kernelDensityEstimation H
                           (map (λ item, get item (to_key H field)) group)
                           method bw)
                        (to_number H (get o "minSize")))
                     (<[to_key H size := VArr []]>
                        (<[to_key H y := VArr []]>
                           (<[to_key H key := field]>
                              (pick H (head group)
                                 (as_sequence (get o "groupBy"))))))
                     s)
            fields)
        (partition H (dv_rows w) (as_sequence (get o "groupBy"))).
Proof.
  intros Hrun. pose proof Hrun as Hok.
  apply transform_Ok_inv in Hrun
    as (fields & [[key y] size] & method & s & Hv & Hs & ->).
  destruct (transform_Ok_bandwidth H fuel options w _ fields _ method Hok Hv)
    as (v & Hval & Hbw).
  unfold bandwidth_value, fields0 in Hval.
  exists fields, key, y, size, method,
    (bandwidth_of H (dv_rows w) fields (get (merged w options) "bandwidth")), s,
    (extent_trace fields (get (merged w options) "extent")),
    (bandwidth_trace fields (get (merged w options) "bandwidth")).
  cbn zeta. simpl dv_rows. simpl trace. rewrite Hbw.
  split_and!; try done.
  - intros name rule Hb Hrule. rewrite Hb, Hrule in Hval.
    destruct (rule _) as [n|]; [|done]. by injection Hval as <-.
  - intros f Hb. rewrite Hb in Hval.
    destruct (call_bandwidth H f _) as [n|]; [|done]. by injection Hval as <-.
  - intros n Hb Hpos. rewrite Hb, (num_lt_0_not_le n Hpos) in Hval.
    by injection Hval as <-.
  - by rewrite <- !app_assoc.
  - apply Forall_forall. intros a Ha.
    by apply extent_trace_no_SetRows in Ha as [_ ?].
  - apply bandwidth_trace_cases.
  - by rewrite result_of_rows, Hbw.
Qed.

Lemma C5_bandwidth_resolved_once_witness :
  transform Demo.host 8 0 Sample.world_rule
  = (Ok (), (transform Demo.host 8 0 Sample.world_rule).2) ∧
  trace (transform Demo.host 8 0 Sample.world_rule).2
  = [Range (VStr "v"); Range (VStr "u"); GetColumn (VStr "v");
     SetRows (dv_rows (transform Demo.host 8 0 Sample.world_rule).2)] ∧
  ∃ fields key y size method bw s ranges cols,
    let o := merged Sample.world_rule 0 in
    let col :=
      getColumn Demo.host (dv_rows Sample.world_rule) (nth 0 fields VUndef) in
    validated Demo.host o fields (key, y, size) method ∧
    series_of Demo.host 8 o (dv_rows Sample.world_rule) fields = Some s ∧
    bw = bandwidth_of Demo.host (dv_rows Sample.world_rule) fields
           (get o "bandwidth") ∧
    (∀ name rule, get o "bandwidth" = VStr name →
                  bandwidth Demo.host !! name = Some rule →
                  rule col = Some bw) ∧
    (∀ f, get o "bandwidth" = VFun f →
          call_bandwidth Demo.host f col = Some bw) ∧
    (∀ n, get o "bandwidth" = VNum n → num_lt (Fin 0) n = true → bw = n) ∧
    trace (transform Demo.host 8 0 Sample.world_rule).2
    = trace Sample.world_rule ++ ranges ++ cols
      ++ [SetRows (dv_rows (transform Demo.host 8 0 Sample.world_rule).2)] ∧
    Forall (λ a, ¬ is_GetColumn a) ranges ∧
    (cols = [] ∨ cols = [GetColumn (nth 0 fields VUndef)]) ∧
    dv_rows (transform Demo.host 8 0 Sample.world_rule).2
    = flat_map (λ group,
        map (λ field,
               foldl (sample_step (to_key Demo.host y) (to_key Demo.host size)
                        (kernelDensityEstimation Demo.host
                           (map (λ item, get item (to_key Demo.host field))
                              group)
                           method bw)
                        (to_number Demo.host (get o "minSize")))
                     (<[to_key Demo.host size := VArr []]>
                        (<[to_key Demo.host y := VArr []]>
                           (<[to_key Demo.host key := field]>
                              (pick Demo.host (head group)
                                 (as_sequence (get o "groupBy"))))))
                     s)
            fields)
        (partition Demo.host (dv_rows Sample.world_rule)
           (as_sequence (get o "groupBy"))).
Proof.
  assert (Hrun : transform Demo.host 8 0 Sample.world_rule
                 = (Ok (), (transform Demo.host 8 0 Sample.world_rule).2))
    by (vm_compute; reflexivity).
  split; [exact Hrun|]. split; [vm_compute; reflexivity|].
  exact (C5_bandwidth_resolved_once Demo.host 8 0 Sample.world_rule _ Hrun).
Defined.

(** ** The fallback to the default rule (lines 76-78) *)

(** A [bandwidth] option that is a string naming neither a rule nor
    another member of the registry object, a number [<= 0], or neither
    string, callable nor number is replaced by the default rule: the
    run reads the column of [fields[0]] once, after the range queries,
    and every row is built with the estimate whose bandwidth is what
    [nrd] returns for that column (lines 71-78, 88-92). *)
Theorem invalid_bandwidth_falls_back (H : Host) (fuel : nat) (options : loc)
    (w w' : world) :
  transform H fuel options w = (Ok (), w') →
  (∀ name, get (merged w options) "bandwidth" = VStr name →
           bandwidth H !! name = None ∧ bandwidth_inherited H name = None) →
  isFunction (get (merged w options) "bandwidth") = false →
  (∀ n, get (merged w options) "bandwidth" = VNum n →
        num_le n (Fin 0) = true) →
  ∃ fields key y size method bw s ranges,
    let o := merged w options in
    let col := getColumn H (dv_rows w) (nth 0 fields VUndef) in
    validated H o fields (key, y, size) method ∧
    series_of H fuel o (dv_rows w) fields = Some s ∧
    nrd H col = Some bw ∧
    Forall (λ a, ¬ is_GetColumn a) ranges ∧
    trace w'
    = trace w ++ ranges
      ++ [GetColumn (nth 0 fields VUndef); SetRows (dv_rows w')] ∧
    dv_rows w'
    = flat_map (λ group,
        map (λ field,
               foldl (sample_step (to_key H y) (to_key H size)
                        (kernelDensityEstimation H
                           (map (λ item, get item (to_key H field)) group)
                           method bw)
                        (to_number H (get o "minSize")))
                     (<[to_key H size := VArr []]>
                        (<[to_key H y := VArr []]>
                           (<[to_key H key := field]>
                              (pick H (head group)
                                 (as_sequence (get o "groupBy"))))))
                     s)
            fields)
        (partition H (dv_rows w) (as_sequence (get o "groupBy"))).
Proof.
  intros Hrun Hname Hfun Hnum. pose proof Hrun as Hok.
  apply transform_Ok_inv in Hrun
    as (fields & [[key y] size] & method & s & Hv & Hs & ->).
  destruct (transform_Ok_bandwidth H fuel options w _ fields _ method Hok Hv)
    as (v & Hval & Hbw).
  assert (Hfall : bandwidth_value H (dv_rows w) fields
                    (get (merged w options) "bandwidth")
                  = VNum <$> nrd H (getColumn H (dv_rows w) (fields0 fields)) ∧
                  bandwidth_trace fields (get (merged w options) "bandwidth")
                  = [GetColumn (fields0 fields)]).
  { unfold bandwidth_value, bandwidth_trace.
    destruct (get (merged w options) "bandwidth") as [| | |n|name| |f];
      try done.
    - by rewrite (Hnum n eq_refl).
    - by destruct (Hname name eq_refl) as [-> ->]. }
  destruct Hfall as [Hfall Htr]. rewrite Hfall in Hval.
  destruct (nrd H (getColumn H (dv_rows w) (fields0 fields))) as [n|] eqn:Hnrd;
    [|done].
  injection Hval as <-. simpl in Hbw.
  exists fields, key, y, size, method, n, s,
    (extent_trace fields (get (merged w options) "extent")).
  cbn zeta. simpl dv_rows. simpl trace. split_and!; try done.
  - apply Forall_forall. intros a Ha.
    by apply extent_trace_no_SetRows in Ha as [_ ?].
  - rewrite Htr. unfold fields0. by rewrite <- !app_assoc.
  - by rewrite result_of_rows, Hbw.
Qed.

Lemma invalid_bandwidth_falls_back_witness :
  transform Demo.host 8 0 Sample.world_zero
  = (Ok (), (transform Demo.host 8 0 Sample.world_zero).2) ∧
  (∀ name, get (merged Sample.world_zero 0) "bandwidth" = VStr name →
           bandwidth Demo.host !! name = None ∧
           bandwidth_inherited Demo.host name = None) ∧
  isFunction (get (merged Sample.world_zero 0) "bandwidth") = false ∧
  (∀ n, get (merged Sample.world_zero 0) "bandwidth" = VNum n →
        num_le n (Fin 0) = true) ∧
  ∃ fields key y size method bw s ranges,
    let o := merged Sample.world_zero 0 in
    let col :=
      getColumn Demo.host (dv_rows Sample.world_zero) (nth 0 fields VUndef) in
    validated Demo.host o fields (key, y, size) method ∧
    series_of Demo.host 8 o (dv_rows Sample.world_zero) fields = Some s ∧
    nrd Demo.host col = Some bw ∧
    Forall (λ a, ¬ is_GetColumn a) ranges ∧
    trace (transform Demo.host 8 0 Sample.world_zero).2
    = trace Sample.world_zero ++ ranges
      ++ [GetColumn (nth 0 fields VUndef);
          SetRows (dv_rows (transform Demo.host 8 0 Sample.world_zero).2)] ∧
    dv_rows (transform Demo.host 8 0 Sample.world_zero).2
    = flat_map (λ group,
        map (λ field,
               foldl (sample_step (to_key Demo.host y) (to_key Demo.host size)
                        (kernelDensityEstimation Demo.host
                           (map (λ item, get item (to_key Demo.host field))
                              group)
                           method bw)
                        (to_number Demo.host (get o "minSize")))
                     (<[to_key Demo.host size := VArr []]>
                        (<[to_key Demo.host y := VArr []]>
                           (<[to_key Demo.host key := field]>
                              (pick Demo.host (head group)
                                 (as_sequence (get o "groupBy"))))))
                     s)
            fields)
        (partition Demo.host (dv_rows Sample.world_zero)
           (as_sequence (get o "groupBy"))).
Proof.
  assert (Hrun : transform Demo.host 8 0 Sample.world_zero
                 = (Ok (), (transform Demo.host 8 0 Sample.world_zero).2))
    by (vm_compute; reflexivity).
  assert (Hbw : get (merged Sample.world_zero 0) "bandwidth"
                = VNum (Fin (inject_Z 0))) by (vm_compute; reflexivity).
  assert (Hname : ∀ name, get (merged Sample.world_zero 0) "bandwidth"
                          = VStr name →
                          bandwidth Demo.host !! name = None ∧
                          bandwidth_inherited Demo.host name = None)
    by (intros name; rewrite Hbw; discriminate).
  assert (Hfun : isFunction (get (merged Sample.world_zero 0) "bandwidth")
                 = false) by (rewrite Hbw; reflexivity).
  assert (Hnum : ∀ n, get (merged Sample.world_zero 0) "bandwidth" = VNum n →
                      num_le n (Fin 0) = true)
    by (intros n; rewrite Hbw; intros [= <-]; reflexivity).
  split; [exact Hrun|]. split; [exact Hname|]. split; [exact Hfun|].
  split; [exact Hnum|].
  exact (invalid_bandwidth_falls_back Demo.host 8 0 Sample.world_zero _
           Hrun Hname Hfun Hnum).
Defined.

(** ** A field without values in a group (lines 84-106) *)

Lemma foldl_add_NaN {A} (l : list A) :
  foldl (λ sum _, num_add sum NaN) NaN l = NaN.
Proof. induction l as [|a l IH]; [done|]. simpl. exact IH. Qed.

Lemma num_add_NaN_r a : num_add a NaN = NaN.
Proof. by destruct a. Qed.

Lemma foldl_add_nought {A} (l : list A) (c : Q) : (c == 0)%Q → ∀ z,
  (z == 0)%Q →
  ∃ r, foldl (λ sum _, num_add sum (Fin c)) (Fin z) l = Fin r ∧ (r == 0)%Q.
Proof.
  intros Hc. induction l as [|a l IH]; intros z Hz; simpl.
  - by exists z.
  - apply IH. lra.
Qed.

Lemma num_div_nought a b : nought a → nought (num_div a b).
Proof.
  intros [->|(z & -> & Hz)]; [by left|].
  destruct b as [| |q|]; simpl.
  - by left.
  - right. by exists 0%Q.
  - destruct (Qeq_bool q 0) eqn:Hq.
    + left. assert (Hn : Qnum z = 0%Z).
      { unfold Qeq in Hz. simpl in Hz. lia. }
      by rewrite Hn.
    + right. exists (z / q)%Q. split; [done|].
      apply Qeq_bool_neq in Hq. rewrite Hz. field. exact Hq.
  - right. by exists 0%Q.
Qed.

Lemma num_ge_nought a m :
  nought a → num_lt (Fin 0) m = true → num_ge a m = false.
Proof.
  intros [->|(z & -> & Hz)] Hm; [done|].
  destruct m as [| |p|]; try done.
  apply num_lt_Fin in Hm. unfold num_ge. simpl.
  destruct (z ?= p)%Q eqn:Hc; [| done |].
  - apply Qeq_alt in Hc. lra.
  - apply Qgt_alt in Hc. lra.
Qed.

(** When no row of the group has a value for the field, every term of
    the estimate is the kernel's value at [NaN]. *)
Lemma estimate_without_values (H : Host) (group : list row) (k : string)
    (method : num → num) (bw x : num) :
  Forall (λ item, get item k = VUndef) group →
  kernelDensityEstimation H (map (λ item, get item k) group) method bw x
  = num_div
      (num_div (foldl (λ sum _, num_add sum (method NaN)) (Fin 0) group) bw)
      (num_of_nat (length group)).
Proof.
  intros Hall. unfold kernelDensityEstimation. rewrite length_map.
  do 2 f_equal. generalize (Fin 0).
  induction Hall as [|item group Hitem _ IH]; intros acc; [done|].
  cbn [map foldl]. rewrite IH, Hitem. cbn [to_number].
  unfold num_sub. cbn [num_neg]. by rewrite num_add_NaN_r.
Qed.

(** Such an estimate passes no threshold when the group has no rows,
    when the kernel is [NaN] at [NaN], or when it is zero at [NaN] and
    the threshold is positive. *)
Lemma density_without_values (H : Host) (group : list row) (k : string)
    (method : num → num) (bw m x : num) :
  Forall (λ item, get item k = VUndef) group →
  group = [] ∨ method NaN = NaN ∨
  (∃ c, method NaN = Fin c ∧ (c == 0)%Q ∧ num_lt (Fin 0) m = true) →
  num_ge (kernelDensityEstimation H (map (λ item, get item k) group)
            method bw x) m = false.
Proof.
  intros Hall Hcase. rewrite estimate_without_values by done.
  destruct Hcase as [->|[Hnan|(c & Hc & Hz & Hm)]].
  - simpl. destruct bw as [| |q|]; simpl; try done.
    by destruct (Qeq_bool q 0).
  - destruct group as [|item group]; simpl.
    + destruct bw as [| |q|]; simpl; try done.
      by destruct (Qeq_bool q 0).
    + rewrite Hnan. simpl. by rewrite foldl_add_NaN.
  - rewrite Hc.
    destruct (foldl_add_nought group c Hz 0 ltac:(reflexivity))
      as (r & -> & Hr).
    apply num_ge_nought; [|done].
    apply num_div_nought, num_div_nought. right. by exists r.
Qed.

(** C8 (amended): let a configured field have no value in a group: the
    group has no rows, or none of its rows has the field.  On
    validated options whose bandwidth resolves to a number no exception
    is raised, and once the sampling loop has ended the run has
    completed and written the row of that group and field.  When the
    group has no rows, or the kernel is [NaN] at [NaN], or it is zero
    at [NaN] and [minSize] is positive, that row is the one set up by
    lines 87-96, whose [y] and [size] sequences are empty. *)
Theorem C8_field_without_values_gives_empty_row (H : Host) (fuel : nat)
    (options : loc) (w : world) (fields : list value) (key y size : value)
    (method : num → num) (n : num) (s : list num) (group : list row)
    (field : value) :
  let o := merged w options in
  let groups := partition H (dv_rows w) (as_sequence (get o "groupBy")) in
  validated H o fields (key, y, size) method →
  bandwidth_value H (dv_rows w) fields (get o "bandwidth") = Some (VNum n) →
  series_of H fuel o (dv_rows w) fields = Some s →
  group ∈ groups → field ∈ fields →
  Forall (λ item, get item (to_key H field) = VUndef) group →
  (∀ fuel', (transform H fuel' options w).1 = Ok () ∨
            (transform H fuel' options w).1 = Diverge) ∧
  ∃ w',
    transform H fuel options w = (Ok (), w') ∧
    density_row H (key, y, size) method n (get o "minSize") s
      (get o "groupBy") group field ∈ dv_rows w' ∧
    (group = [] ∨ method NaN = NaN ∨
     (∃ c, method NaN = Fin c ∧ (c == 0)%Q ∧
           num_lt (Fin 0) (to_number H (get o "minSize")) = true) →
     ∃ r, r ∈ dv_rows w' ∧
          r = <[to_key H size := VArr []]>
                (<[to_key H y := VArr []]>
                   (<[to_key H key := field]>
                      (pick H (head group)
                         (as_sequence (get o "groupBy"))))) ∧
          r !! to_key H y = Some (VArr []) ∧
          r !! to_key H size = Some (VArr [])).
Proof.
  intros o groups Hv Hb Hs Hgroup Hfield Hall.
  pose proof (bandwidth_of_number H _ _ _ _ Hb) as Hn.
  split.
  - intros fuel'.
    pose proof (transform_numeric_bandwidth H fuel' options w fields
                  (key, y, size) method n Hv Hb) as Hcase.
    cbn zeta in Hcase. fold o in Hcase.
    destruct (series_of H fuel' o (dv_rows w) fields) as [s'|].
    + left. by rewrite Hcase.
    + by right.
  - pose proof (transform_numeric_bandwidth H fuel options w fields
                  (key, y, size) method n Hv Hb) as Hrun.
    cbn zeta in Hrun. fold o in Hrun. rewrite Hs in Hrun.
    eexists. split; [exact Hrun|]. simpl dv_rows. unfold result_of.
    rewrite Hn.
    assert (Hin : density_row H (key, y, size) method n (get o "minSize") s
                    (get o "groupBy") group field
                  ∈ build_result H (key, y, size) method n (get o "minSize")
                      s (get o "groupBy") groups fields).
    { apply elem_of_build_result. by exists group, field. }
    split; [exact Hin|]. intros Hcase.
    eexists. split; [exact Hin|].
    assert (Hrow : density_row H (key, y, size) method n (get o "minSize") s
                     (get o "groupBy") group field
                   = <[to_key H size := VArr []]>
                       (<[to_key H y := VArr []]>
                          (<[to_key H key := field]>
                             (pick H (head group)
                                (as_sequence (get o "groupBy")))))).
    { rewrite density_row_unfold. apply sample_loop_none.
      intros x _. by apply density_without_values. }
    split; [exact Hrow|]. rewrite Hrow.
    split; [|apply lookup_insert_eq].
    destruct (decide (to_key H size = to_key H y)) as [->|Hne].
    + apply lookup_insert_eq.
    + rewrite lookup_insert_ne by done. apply lookup_insert_eq.
Qed.

Lemma C8_field_without_values_gives_empty_row_witness :
  validated Demo.host (merged Sample.world_missing 0) [VStr "v"]
    (VStr "key", VStr "y", VStr "size") Demo.uniform ∧
  bandwidth_value Demo.host (dv_rows Sample.world_missing) [VStr "v"]
    (get (merged Sample.world_missing 0) "bandwidth") = Some (VNum (Fin 1)) ∧
  series_of Demo.host 8 (merged Sample.world_missing 0)
    (dv_rows Sample.world_missing) [VStr "v"]
  = Some [Fin 0; Fin 1; Fin 2] ∧
  [ <["g" := VStr "b"]> {[ "u" := Demo.int 1 ]} ]
  ∈ partition Demo.host (dv_rows Sample.world_missing)
      (as_sequence (get (merged Sample.world_missing 0) "groupBy")) ∧
  ∃ w' r,
    transform Demo.host 8 0 Sample.world_missing = (Ok (), w') ∧
    r ∈ dv_rows w' ∧
    r = <["size" := VArr []]>
          (<["y" := VArr []]> (<["key" := VStr "v"]> {[ "g" := VStr "b" ]})).
Proof.
  assert (Hv : validated Demo.host (merged Sample.world_missing 0)
                 [VStr "v"] (VStr "key", VStr "y", VStr "size")
                 Demo.uniform).
  { split; [vm_compute; reflexivity|]. split; [discriminate|].
    split; [vm_compute; reflexivity|].
    replace (get (merged Sample.world_missing 0) "method")
      with (VStr "uniform") by (vm_compute; reflexivity).
    apply method_by_name. reflexivity. }
  assert (Hb : bandwidth_value Demo.host (dv_rows Sample.world_missing)
                 [VStr "v"]
                 (get (merged Sample.world_missing 0) "bandwidth")
               = Some (VNum (Fin 1))) by (vm_compute; reflexivity).
  assert (Hs : series_of Demo.host 8 (merged Sample.world_missing 0)
                 (dv_rows Sample.world_missing) [VStr "v"]
               = Some [Fin 0; Fin 1; Fin 2]) by (vm_compute; reflexivity).
  assert (Hg : [ <["g" := VStr "b"]> {[ "u" := Demo.int 1 ]} ]
               ∈ partition Demo.host (dv_rows Sample.world_missing)
                   (as_sequence
                      (get (merged Sample.world_missing 0) "groupBy"))).
  { replace (partition Demo.host (dv_rows Sample.world_missing)
               (as_sequence (get (merged Sample.world_missing 0) "groupBy")))
      with [ [ <["g" := VStr "a"]> {[ "v" := Demo.int 1 ]} ];
             [ <["g" := VStr "b"]> ({[ "u" := Demo.int 1 ]} : row) ] ]
      by (vm_compute; reflexivity).
    apply list_elem_of_further, list_elem_of_here. }
  split; [exact Hv|]. split; [exact Hb|]. split; [exact Hs|].
  split; [exact Hg|].
  destruct (C8_field_without_values_gives_empty_row Demo.host 8 0
              Sample.world_missing [VStr "v"] (VStr "key") (VStr "y")
              (VStr "size") Demo.uniform (Fin 1) [Fin 0; Fin 1; Fin 2]
              [ <["g" := VStr "b"]> {[ "u" := Demo.int 1 ]} ] (VStr "v")
              Hv Hb Hs Hg ltac:(apply list_elem_of_here)
              ltac:(apply Forall_singleton; vm_compute; reflexivity))
    as (_ & w' & Hrun & _ & Hempty).
  destruct Hempty as (r & Hr & Heq & _).
  { right; right. exists 0%Q. split; [reflexivity|]. split; [reflexivity|].
    vm_compute. reflexivity. }
  exists w', r. split; [exact Hrun|]. split; [exact Hr|].
  rewrite Heq. vm_compute. reflexivity.
Defined.

(** C8 as stated fails: with [minSize] zero and the box kernel, which is
    zero at [NaN], the group whose rows lack the field gets the density
    zero at every sample, and zero passes the threshold: the row holds
    all three samples. *)
Lemma C8_counterexample :
  ¬ (∀ (H : Host) (fuel : nat) (options : loc) (w w' : world)
       (fields : list value) (key y size : value) (group : list row)
       (field : value),
       transform H fuel options w = (Ok (), w') →
       getFields H (merged w options) = VArr fields →
       get (merged w options) "as" = VArr [key; y; size] →
       group ∈ partition H (dv_rows w)
                 (as_sequence (get (merged w options) "groupBy")) →
       field ∈ fields →
       Forall (λ item, get item (to_key H field) = VUndef) group →
       ∃ r, r ∈ dv_rows w' ∧
            r !! to_key H y = Some (VArr []) ∧
            r !! to_key H size = Some (VArr [])).
Proof.
  intros Hall.
  assert (Hout : dv_rows (transform Demo.host 8 0 Sample.world_missing0).2
                 = [ <["g" := VStr "a"]>
                       (<["key" := VStr "v"]>
                          (<["y" := VArr [VNum (Fin 0); VNum (Fin 1);
                                          VNum (Fin 2)]]>
                             {[ "size" := VArr [VNum (Fin (1 # 2));
                                                VNum (Fin (1 # 2));
                                                VNum (Fin (1 # 2))] ]}));
                     <["g" := VStr "b"]>
                       (<["key" := VStr "v"]>
                          (<["y" := VArr [VNum (Fin 0); VNum (Fin 1);
                                          VNum (Fin 2)]]>
                             {[ "size" := VArr [VNum (Fin 0); VNum (Fin 0);
                                                VNum (Fin 0)] ]})) ])
    by (vm_compute; reflexivity).
  destruct (Hall Demo.host 8 0 Sample.world_missing0
              (transform Demo.host 8 0 Sample.world_missing0).2
              [VStr "v"] (VStr "key") (VStr "y") (VStr "size")
              [ <["g" := VStr "b"]> {[ "u" := Demo.int 1 ]} ] (VStr "v")
              ltac:(vm_compute; reflexivity)
              ltac:(vm_compute; reflexivity)
              ltac:(vm_compute; reflexivity))
    as (r & Hr & Hy & _).
  - replace (partition Demo.host (dv_rows Sample.world_missing0)
               (as_sequence (get (merged Sample.world_missing0 0) "groupBy")))
      with [ [ <["g" := VStr "a"]> {[ "v" := Demo.int 1 ]} ];
             [ <["g" := VStr "b"]> ({[ "u" := Demo.int 1 ]} : row) ] ]
      by (vm_compute; reflexivity).
    apply list_elem_of_further, list_elem_of_here.
  - apply list_elem_of_here.
  - apply Forall_singleton. vm_compute. reflexivity.
  - rewrite Hout in Hr. cbn [to_key] in Hy.
    apply elem_of_cons in Hr as [->|Hr].
    { vm_compute in Hy. discriminate Hy. }
    apply list_elem_of_singleton in Hr as ->.
    vm_compute in Hy. discriminate Hy.
Qed.


(** ** The registries and the views of the data set *)

Section Dicts.
Context (E : Engine).

Lemma dict_set_plain name v d :
  proto d = None → name ≠ "__proto__" → proto (dict_set E name v d) = None.
Proof. intros Hp Hn. unfold dict_set. rewrite Hp. by rewrite decide_False. Qed.

Lemma dict_get_set_eq name v d :
  proto d = None → name ≠ "__proto__" →
  dict_get E name (dict_set E name v d) = v.
Proof.
  intros Hp Hn. unfold dict_get, dict_set. rewrite Hp.
  rewrite decide_False by done. simpl. by rewrite lookup_insert_eq.
Qed.

Lemma dict_get_set_ne name name' v d :
  proto d = None → name ≠ "__proto__" → name' ≠ name →
  dict_get E name' (dict_set E name v d) = dict_get E name' d.
Proof.
  intros Hp Hn Hne. unfold dict_get, dict_set. rewrite Hp.
  rewrite decide_False by done. simpl. by rewrite lookup_insert_ne.
Qed.

Lemma dict_set_set name v1 v2 d :
  proto d = None → name ≠ "__proto__" →
  dict_set E name v2 (dict_set E name v1 d) = dict_set E name v2 d.
Proof.
  intros Hp Hn. unfold dict_set. rewrite Hp.
  rewrite !decide_False by done. simpl.
  by rewrite insert_insert_eq.
Qed.

Lemma dict_set_comm name1 name2 v1 v2 d :
  proto d = None → name1 ≠ "__proto__" → name2 ≠ "__proto__" →
  name1 ≠ name2 →
  dict_set E name1 v1 (dict_set E name2 v2 d)
  = dict_set E name2 v2 (dict_set E name1 v1 d).
Proof.
  intros Hp Hn1 Hn2 Hne. unfold dict_set. rewrite Hp.
  rewrite !decide_False by done. simpl.
  by rewrite insert_insert_ne.
Qed.

Lemma dict_get_empty name :
  dict_get E name empty_dict = Object_prototype E name.
Proof. unfold dict_get. simpl. by rewrite lookup_empty. Qed.
End Dicts.

(** A transform or a connector registered under a name is what the
    getter returns for that name, and registering again under the same
    name replaces the earlier entry without a trace of it. *)
Theorem registered_entry_is_returned (E : Engine) (r : registry)
    (name : string) (v v' : jsval) :
  proto (Transforms r) = None → proto (connectors r) = None →
  name ≠ "__proto__" →
  getTransform E name (registerTransform E name v r) = v ∧
  getConnector E name (registerConnector E name v r) = v ∧
  registerTransform E name v' (registerTransform E name v r)
  = registerTransform E name v' r ∧
  registerConnector E name v' (registerConnector E name v r)
  = registerConnector E name v' r.
Proof.
  intros Ht Hc Hn. unfold getTransform, getConnector, registerTransform,
    registerConnector. simpl. split_and!.
  - by apply dict_get_set_eq.
  - by apply dict_get_set_eq.
  - by rewrite dict_set_set.
  - by rewrite dict_set_set.
Qed.

Lemma registered_entry_is_returned_witness :
  proto (Transforms Sample.empty_registry) = None ∧
  proto (connectors Sample.empty_registry) = None ∧
  "kde" ≠ "__proto__" ∧
  getTransform Sample.engine "kde"
    (registerTransform Sample.engine "kde" (Plain (VFun "transform"))
       Sample.empty_registry)
  = Plain (VFun "transform") ∧
  getConnector Sample.engine "kde"
    (registerConnector Sample.engine "kde" (Plain (VFun "transform"))
       Sample.empty_registry)
  = Plain (VFun "transform") ∧
  registerTransform Sample.engine "kde" (Plain (VFun "other"))
    (registerTransform Sample.engine "kde" (Plain (VFun "transform"))
       Sample.empty_registry)
  = registerTransform Sample.engine "kde" (Plain (VFun "other"))
      Sample.empty_registry ∧
  registerConnector Sample.engine "kde" (Plain (VFun "other"))
    (registerConnector Sample.engine "kde" (Plain (VFun "transform"))
       Sample.empty_registry)
  = registerConnector Sample.engine "kde" (Plain (VFun "other"))
      Sample.empty_registry.
Proof.
  assert (Hn : "kde" ≠ "__proto__") by discriminate.
  split; [reflexivity|]. split; [reflexivity|]. split; [exact Hn|].
  exact (registered_entry_is_returned Sample.engine Sample.empty_registry
           "kde" (Plain (VFun "transform")) (Plain (VFun "other"))
           eq_refl eq_refl Hn).
Defined.

(** Registering a transform changes what is returned for its name
    only: every other transform name and every connector name answer
    as before, a connector registration leaves the transforms alone,
    and registrations under different names can be made in either
    order. *)
Theorem registration_leaves_the_rest (E : Engine) (r : registry)
    (name name2 : string) (v v2 : jsval) :
  proto (Transforms r) = None → name ≠ "__proto__" →
  (∀ name', name' ≠ name →
     getTransform E name' (registerTransform E name v r)
     = getTransform E name' r) ∧
  (∀ name', getConnector E name' (registerTransform E name v r)
            = getConnector E name' r) ∧
  (∀ name', getTransform E name' (registerConnector E name v r)
            = getTransform E name' r) ∧
  (name2 ≠ "__proto__" → name ≠ name2 →
   registerTransform E name v (registerTransform E name2 v2 r)
   = registerTransform E name2 v2 (registerTransform E name v r)).
Proof.
  intros Ht Hn. unfold getTransform, getConnector, registerTransform,
    registerConnector. simpl. split_and!; try done.
  - intros name' Hne. by apply dict_get_set_ne.
  - intros Hn2 Hne. by rewrite dict_set_comm.
Qed.

Lemma registration_leaves_the_rest_witness :
  proto (Transforms Sample.empty_registry) = None ∧
  "kde" ≠ "__proto__" ∧
  (∀ name', name' ≠ "kde" →
     getTransform Sample.engine name'
       (registerTransform Sample.engine "kde" (Plain (VFun "transform"))
          Sample.empty_registry)
     = getTransform Sample.engine name' Sample.empty_registry) ∧
  (∀ name', getConnector Sample.engine name'
              (registerTransform Sample.engine "kde"
                 (Plain (VFun "transform")) Sample.empty_registry)
            = getConnector Sample.engine name' Sample.empty_registry) ∧
  (∀ name', getTransform Sample.engine name'
              (registerConnector Sample.engine "kde"
                 (Plain (VFun "transform")) Sample.empty_registry)
            = getTransform Sample.engine name' Sample.empty_registry) ∧
  ("KDE" ≠ "__proto__" → "kde" ≠ "KDE" →
   registerTransform Sample.engine "kde" (Plain (VFun "transform"))
     (registerTransform Sample.engine "KDE" (Plain (VFun "other"))
        Sample.empty_registry)
   = registerTransform Sample.engine "KDE" (Plain (VFun "other"))
       (registerTransform Sample.engine "kde" (Plain (VFun "transform"))
          Sample.empty_registry)).
Proof.
  assert (Hn : "kde" ≠ "__proto__") by discriminate.
  split; [reflexivity|]. split; [exact Hn|].
  exact (registration_leaves_the_rest Sample.engine Sample.empty_registry
           "kde" "KDE" (Plain (VFun "transform")) (Plain (VFun "other"))
           eq_refl Hn).
Defined.

(** After lines 111-113 of [kde.ts] the three names
    ['kernel-density-estimation'], ['kde'] and ['KDE'] return the one
    transform, every other name and every connector answer as before,
    and running the three lines again changes nothing. *)
Theorem kde_registered_under_three_names (E : Engine) (r : registry)
    (transform : jsval) :
  proto (Transforms r) = None →
  (∀ name, name ∈ ["kernel-density-estimation"; "kde"; "KDE"] →
           getTransform E name (register_kde E transform r) = transform) ∧
  (∀ name, name ∉ ["kernel-density-estimation"; "kde"; "KDE"] →
           getTransform E name (register_kde E transform r)
           = getTransform E name r) ∧
  (∀ name, getConnector E name (register_kde E transform r)
           = getConnector E name r) ∧
  register_kde E transform (register_kde E transform r)
  = register_kde E transform r.
Proof.
  intros Ht.
  assert (H1 : "kernel-density-estimation" ≠ "__proto__") by discriminate.
  assert (H2 : "kde" ≠ "__proto__") by discriminate.
  assert (H3 : "KDE" ≠ "__proto__") by discriminate.
  assert (Hp1 : proto (dict_set E "kernel-density-estimation" transform
                         (Transforms r)) = None)
    by by apply dict_set_plain.
  assert (Hp2 : proto (dict_set E "kde" transform
                         (dict_set E "kernel-density-estimation" transform
                            (Transforms r))) = None)
    by by apply dict_set_plain.
  unfold register_kde, getTransform, getConnector, registerTransform.
  simpl. split_and!; try done.
  - intros name Hin.
    apply elem_of_cons in Hin as [->|Hin];
      [|apply elem_of_cons in Hin as [->|Hin];
        [|apply list_elem_of_singleton in Hin as ->]].
    + rewrite !dict_get_set_ne by done. by apply dict_get_set_eq.
    + rewrite dict_get_set_ne by done. by apply dict_get_set_eq.
    + by apply dict_get_set_eq.
  - intros name Hnin.
    apply not_elem_of_cons in Hnin as [Hn1 Hnin].
    apply not_elem_of_cons in Hnin as [Hn2 Hnin].
    apply not_elem_of_cons in Hnin as [Hn3 _].
    by rewrite !dict_get_set_ne.
  - f_equal. unfold dict_set.
    rewrite Ht. rewrite !decide_False by done. simpl. f_equal.
    apply map_eq. intros k.
    destruct (decide (k = "KDE")) as [->|?];
      [by rewrite !lookup_insert_eq|rewrite !(lookup_insert_ne _ "KDE") by done].
    destruct (decide (k = "kde")) as [->|?];
      [by rewrite !lookup_insert_eq|rewrite !(lookup_insert_ne _ "kde") by done].
    destruct (decide (k = "kernel-density-estimation")) as [->|?];
      [by rewrite !lookup_insert_eq|].
    by rewrite !lookup_insert_ne.
Qed.

Lemma kde_registered_under_three_names_witness :
  proto (Transforms Sample.empty_registry) = None ∧
  (∀ name, name ∈ ["kernel-density-estimation"; "kde"; "KDE"] →
           getTransform Sample.engine name
             (register_kde Sample.engine (Plain (VFun "transform"))
                Sample.empty_registry)
           = Plain (VFun "transform")) ∧
  (∀ name, name ∉ ["kernel-density-estimation"; "kde"; "KDE"] →
           getTransform Sample.engine name
             (register_kde Sample.engine (Plain (VFun "transform"))
                Sample.empty_registry)
           = getTransform Sample.engine name Sample.empty_registry) ∧
  (∀ name, getConnector Sample.engine name
             (register_kde Sample.engine (Plain (VFun "transform"))
                Sample.empty_registry)
           = getConnector Sample.engine name Sample.empty_registry) ∧
  register_kde Sample.engine (Plain (VFun "transform"))
    (register_kde Sample.engine (Plain (VFun "transform"))
       Sample.empty_registry)
  = register_kde Sample.engine (Plain (VFun "transform"))
      Sample.empty_registry.
Proof.
  split; [reflexivity|].
  exact (kde_registered_under_three_names Sample.engine Sample.empty_registry
           (Plain (VFun "transform")) eq_refl).
Defined.

Section Views.
Context (E : Engine).

Lemma getView_alter_views name view name' me (s : store) (c : nat) :
  getView E name' me
    {| instances :=
         alter (λ i, {| isDataSet := isDataSet i; states := states i;
                        views := dict_set E name view (views i) |})
               me (instances s);
       created := c |}
  = match instances s !! me with
    | Some i => dict_get E name' (dict_set E name view (views i))
    | None => Plain VUndef
    end.
Proof.
  unfold getView, loc in *. simpl. rewrite list_lookup_alter_eq.
  destruct (instances s !! me); reflexivity.
Qed.

Lemma getView_alter_other name view name' me other (s : store) (c : nat) :
  other ≠ me →
  getView E name' other
    {| instances :=
         alter (λ i, {| isDataSet := isDataSet i; states := states i;
                        views := dict_set E name view (views i) |})
               me (instances s);
       created := c |}
  = getView E name' other s.
Proof.
  intros Hne. unfold getView. simpl. by rewrite list_lookup_alter_ne by done.
Qed.
End Views.

Lemma createView_getView (E : Engine) (s : store) (me : loc) (i : instance)
    (name : string) :
  instances s !! me = Some i → proto (views i) = None →
  name ≠ "__proto__" →
  getView E name me (createView E name me s).2 = (createView E name me s).1 ∧
  ∃ i', instances (createView E name me s).2 !! me = Some i' ∧
        proto (views i') = None.
Proof.
  intros Hi Hp Hn. unfold createView. cbn [fst snd]. split.
  - rewrite getView_alter_views, Hi. by apply dict_get_set_eq.
  - cbn [instances]. unfold loc in *. rewrite list_lookup_alter_eq, Hi.
    eexists. split; [reflexivity|]. by apply dict_set_plain.
Qed.

(** [createView] stores the view it returns under the given name and
    leaves the other names alone.  It never reuses a view: called
    again with the same name it makes another view, which replaces the
    first. *)
Theorem created_view_is_stored (E : Engine) (s : store) (me : loc)
    (i : instance) (name : string) :
  instances s !! me = Some i → proto (views i) = None →
  name ≠ "__proto__" →
  let first := createView E name me s in
  let second := createView E name me first.2 in
  getView E name me first.2 = first.1 ∧
  (∀ name', name' ≠ name →
            getView E name' me first.2 = getView E name' me s) ∧
  second.1 ≠ first.1 ∧
  getView E name me second.2 = second.1.
Proof.
  intros Hi Hp Hn first second.
  destruct (createView_getView E s me i name Hi Hp Hn) as (Hget & i1 & Hi1 & Hp1).
  destruct (createView_getView E first.2 me i1 name Hi1 Hp1 Hn)
    as (Hget2 & _).
  split_and!; try done.
  - intros name' Hne. unfold first, createView. cbn [snd].
    rewrite getView_alter_views, Hi.
    unfold getView. rewrite Hi. by apply dict_get_set_ne.
  - unfold second, first, createView. cbn [fst snd created].
    intros [= Heq]. lia.
Qed.

Lemma created_view_is_stored_witness :
  instances (new_DataSet Sample.empty_store).2 !! 0
  = Some {| isDataSet := true; states := empty_dict; views := empty_dict |} ∧
  proto (views {| isDataSet := true; states := empty_dict;
                  views := empty_dict |}) = None ∧
  "sales" ≠ "__proto__" ∧
  let first :=
    createView Sample.engine "sales" 0 (new_DataSet Sample.empty_store).2 in
  let second := createView Sample.engine "sales" 0 first.2 in
  getView Sample.engine "sales" 0 first.2 = first.1 ∧
  (∀ name', name' ≠ "sales" →
            getView Sample.engine name' 0 first.2
            = getView Sample.engine name' 0
                (new_DataSet Sample.empty_store).2) ∧
  second.1 ≠ first.1 ∧
  getView Sample.engine "sales" 0 second.2 = second.1.
Proof.
  assert (Hn : "sales" ≠ "__proto__") by discriminate.
  split; [reflexivity|]. split; [reflexivity|]. split; [exact Hn|].
  exact (created_view_is_stored Sample.engine
           (new_DataSet Sample.empty_store).2 0
           {| isDataSet := true; states := empty_dict; views := empty_dict |}
           "sales" eq_refl eq_refl Hn).
Defined.

(** Views belong to one data set: of two data sets made one after the
    other, the second does not see a view created in the first, and no
    other instance is changed by the creation. *)
Theorem views_are_per_instance (E : Engine) (s : store) (name : string) :
  name ≠ "__proto__" →
  let a := new_DataSet s in
  let b := new_DataSet a.2 in
  let made := createView E name a.1 b.2 in
  a.1 ≠ b.1 ∧
  getView E name a.1 made.2 = made.1 ∧
  getView E name b.1 made.2 = Object_prototype E name ∧
  (∀ other name', other ≠ a.1 →
     getView E name' other made.2 = getView E name' other b.2).
Proof.
  intros Hn a b made.
  set (fresh := {| isDataSet := true; states := empty_dict;
                   views := empty_dict |}).
  assert (Hab : a.1 ≠ b.1).
  { unfold b, a, new_DataSet. cbn [fst snd instances].
    rewrite length_app. simpl. lia. }
  assert (Hia : instances b.2 !! a.1 = Some fresh).
  { unfold b, a, new_DataSet. cbn [fst snd instances].
    rewrite lookup_app_l by (rewrite length_app; simpl; lia).
    by apply list_lookup_middle. }
  assert (Hib : instances b.2 !! b.1 = Some fresh).
  { unfold b, a, new_DataSet. cbn [fst snd instances].
    by apply list_lookup_middle. }
  split_and!; try done.
  - by apply (createView_getView E b.2 a.1 fresh name Hia).
  - unfold made, createView, getView. cbn [snd instances].
    unfold loc in *. rewrite list_lookup_alter_ne by done.
    rewrite Hib. apply dict_get_empty.
  - intros other name' Hne. unfold made, createView. cbn [snd].
    by apply getView_alter_other.
Qed.

Lemma views_are_per_instance_witness :
  "sales" ≠ "__proto__" ∧
  let a := new_DataSet Sample.empty_store in
  let b := new_DataSet a.2 in
  let made := createView Sample.engine "sales" a.1 b.2 in
  a.1 ≠ b.1 ∧
  getView Sample.engine "sales" a.1 made.2 = made.1 ∧
  getView Sample.engine "sales" b.1 made.2
  = Object_prototype Sample.engine "sales" ∧
  (∀ other name', other ≠ a.1 →
     getView Sample.engine name' other made.2
     = getView Sample.engine name' other b.2).
Proof.
  assert (Hn : "sales" ≠ "__proto__") by discriminate.
  split; [exact Hn|].
  exact (views_are_per_instance Sample.engine Sample.empty_store "sales" Hn).
Defined.

(** [setView] stores the very view it is given, so that the view of
    one name can be filed under a second name as well; it makes no
    view and changes no other name and no other data set. *)
Theorem setView_stores_the_given_view (E : Engine) (s : store) (me : loc)
    (i : instance) (name : string) (view : jsval) :
  instances s !! me = Some i → proto (views i) = None →
  name ≠ "__proto__" →
  getView E name me (setView E name view me s) = view ∧
  (∀ name', name' ≠ name →
     getView E name' me (setView E name view me s) = getView E name' me s) ∧
  (∀ other name', other ≠ me →
     getView E name' other (setView E name view me s)
     = getView E name' other s) ∧
  created (setView E name view me s) = created s.
Proof.
  intros Hi Hp Hn. unfold setView. split_and!; try done.
  - rewrite getView_alter_views, Hi. by apply dict_get_set_eq.
  - intros name' Hne. rewrite getView_alter_views, Hi.
    unfold getView. rewrite Hi. by apply dict_get_set_ne.
  - intros other name' Hne. by apply getView_alter_other.
Qed.

Lemma setView_stores_the_given_view_witness :
  instances (new_DataSet Sample.empty_store).2 !! 0
  = Some {| isDataSet := true; states := empty_dict; views := empty_dict |} ∧
  proto (views {| isDataSet := true; states := empty_dict;
                  views := empty_dict |}) = None ∧
  "copy" ≠ "__proto__" ∧
  getView Sample.engine "copy" 0
    (setView Sample.engine "copy" (ObjectRef 7) 0
       (new_DataSet Sample.empty_store).2)
  = ObjectRef 7 ∧
  (∀ name', name' ≠ "copy" →
     getView Sample.engine name' 0
       (setView Sample.engine "copy" (ObjectRef 7) 0
          (new_DataSet Sample.empty_store).2)
     = getView Sample.engine name' 0 (new_DataSet Sample.empty_store).2) ∧
  (∀ other name', other ≠ 0 →
     getView Sample.engine name' other
       (setView Sample.engine "copy" (ObjectRef 7) 0
          (new_DataSet Sample.empty_store).2)
     = getView Sample.engine name' other (new_DataSet Sample.empty_store).2) ∧
  created (setView Sample.engine "copy" (ObjectRef 7) 0
             (new_DataSet Sample.empty_store).2)
  = created (new_DataSet Sample.empty_store).2.
Proof.
  assert (Hn : "copy" ≠ "__proto__") by discriminate.
  split; [reflexivity|]. split; [reflexivity|]. split; [exact Hn|].
  exact (setView_stores_the_given_view Sample.engine
           (new_DataSet Sample.empty_store).2 0
           {| isDataSet := true; states := empty_dict; views := empty_dict |}
           "copy" (ObjectRef 7) eq_refl eq_refl Hn).
Defined.
